(** * Spider: a shallow embedding of [src/spider.py]

    The development follows the methods of the [Spider] class:
    - [modify_verify_url] (URL normalisation, with the parts of
      [urllib.parse] it calls),
    - [get_all_sublinks_from_soup] and [get_all_images_from_soup]
      (tree-based extraction),
    - [get_elements_xpaths] (indexed XPath enumeration),
    - [_scroll_down_pages] (scroll-until-quiet loop),
    - [get_all_sublinks_selenium_by_soup],
      [get_all_sublinks_selenium_by_xpath] and
      [get_attributes_from_selenium_using_xpath] (reading the live page).

    Conventions.
    - A Python [str] is represented by the bytes of its UTF-8 encoding, as a
      [string].  Every string operation the program performs searches for,
      or splits on, ASCII characters, and these act identically on the
      encoding; [quote] works on the encoding by definition.
    - A call that may raise returns a [result]; a [while True] loop takes a
      fuel argument and answers [None] when the fuel runs out.
    - The browser, the [validators] package, [ipaddress] and [unicodedata]
      are outside the repository: they are variables of the sections that
      use them. *)

From Stdlib Require Import ZArith QArith Qpower List Bool Ascii String Lia SpecFloat.
From stdpp Require Import base option list gmap strings pretty.

Local Open Scope stdpp_scope.
Local Open Scope Z_scope.
Local Open Scope nat_scope.

(** ** Results of calls that may raise *)

Inductive exn : Type :=
  | ValueError
  | IndexError
  | UnboundLocalError.

Inductive result (A : Type) : Type :=
  | Returned (a : A)
  | Raised (e : exn).
Arguments Returned {A} a.
Arguments Raised {A} e.

Global Instance result_ret : MRet result := fun A a => Returned a.
Global Instance result_bind : MBind result := fun A B f m =>
  match m with
  | Returned a => f a
  | Raised e => Raised e
  end.

(** ** Python string operations used by the program *)

Module Str.

Definition of_char (c : ascii) : string := String c EmptyString.

(** [c in s] for a single character [c]. *)
Fixpoint has_char (c : ascii) (s : string) : bool :=
  match s with
  | EmptyString => false
  | String a s' => Ascii.eqb a c || has_char c s'
  end.

(** [needle in s]. *)
Fixpoint contains (needle s : string) : bool :=
  String.prefix needle s ||
  match s with
  | EmptyString => false
  | String _ s' => contains needle s'
  end.

(** [s.startswith(p)]. *)
Definition startswith (p s : string) : bool := String.prefix p s.

(** [s[:n]] and [s[n:]]. *)
Fixpoint take (n : nat) (s : string) : string :=
  match n, s with
  | S k, String a s' => String a (take k s')
  | _, _ => EmptyString
  end.

Fixpoint drop (n : nat) (s : string) : string :=
  match n, s with
  | S k, String _ s' => drop k s'
  | _, _ => s
  end.

(** [s.find(c)]: [None] stands for [-1]. *)
Fixpoint find (c : ascii) (s : string) : option nat :=
  match s with
  | EmptyString => None
  | String a s' =>
      if Ascii.eqb a c then Some 0
      else match find c s' with Some i => Some (S i) | None => None end
  end.

(** [s.rfind(c)]. *)
Fixpoint rfind (c : ascii) (s : string) : option nat :=
  match s with
  | EmptyString => None
  | String a s' =>
      match rfind c s' with
      | Some i => Some (S i)
      | None => if Ascii.eqb a c then Some 0 else None
      end
  end.

(** [s.find(c, start)]. *)
Definition find_from (c : ascii) (start : nat) (s : string) : option nat :=
  match find c (drop start s) with
  | Some i => Some (start + i)
  | None => None
  end.

(** [s.partition(c)]: text before the first [c], whether [c] was found,
    text after it. *)
Definition partition (c : ascii) (s : string) : string * bool * string :=
  match find c s with
  | Some i => (take i s, true, drop (S i) s)
  | None => (s, false, EmptyString)
  end.

(** [s.rpartition(c)[2]]: the text after the last [c], all of [s] when
    there is none. *)
Definition after_last (c : ascii) (s : string) : string :=
  match rfind c s with
  | Some i => drop (S i) s
  | None => s
  end.

(** [s.split(c, 1)] for an [s] that contains [c]; [(s, "")] otherwise. *)
Definition split_once (c : ascii) (s : string) : string * string :=
  match find c s with
  | Some i => (take i s, drop (S i) s)
  | None => (s, EmptyString)
  end.

(** [s.split(c)] for a one-character separator. *)
Fixpoint split_char_go (c : ascii) (cur : string) (s : string) : list string :=
  match s with
  | EmptyString => [cur]
  | String a s' =>
      if Ascii.eqb a c then cur :: split_char_go c EmptyString s'
      else split_char_go c (cur +:+ of_char a) s'
  end.
Definition split_char (c : ascii) (s : string) : list string :=
  split_char_go c EmptyString s.

(** [s.split(sep)] for a non-empty separator [sep]: [skip] counts the
    characters of a separator occurrence still to be consumed. *)
Fixpoint split_go (sep : string) (skip : nat) (cur : string) (s : string)
  : list string :=
  match s with
  | EmptyString => [cur]
  | String a s' =>
      match skip with
      | S k => split_go sep k cur s'
      | O =>
          if String.prefix sep s
          then cur :: split_go sep (String.length sep - 1) EmptyString s'
          else split_go sep 0 (cur +:+ of_char a) s'
      end
  end.
Definition split (sep s : string) : list string :=
  split_go sep 0 EmptyString s.

(** [sep.join(l)]. *)
Fixpoint join (sep : string) (l : list string) : string :=
  match l with
  | [] => EmptyString
  | [x] => x
  | x :: rest => x +:+ sep +:+ join sep rest
  end.

(** [s.replace(c, "")]. *)
Fixpoint remove_char (c : ascii) (s : string) : string :=
  match s with
  | EmptyString => EmptyString
  | String a s' =>
      if Ascii.eqb a c then remove_char c s' else String a (remove_char c s')
  end.

(** [s.lstrip(chars)], [s.strip(chars)] for a character class. *)
Fixpoint lstrip (p : ascii -> bool) (s : string) : string :=
  match s with
  | String a s' => if p a then lstrip p s' else s
  | EmptyString => EmptyString
  end.

Fixpoint rstrip (p : ascii -> bool) (s : string) : string :=
  match s with
  | EmptyString => EmptyString
  | String a s' =>
      match rstrip p s' with
      | EmptyString => if p a then EmptyString else of_char a
      | r => String a r
      end
  end.

Definition strip (p : ascii -> bool) (s : string) : string :=
  rstrip p (lstrip p s).

Fixpoint forall_chars (p : ascii -> bool) (s : string) : bool :=
  match s with
  | EmptyString => true
  | String a s' => p a && forall_chars p s'
  end.

Fixpoint map_chars (f : ascii -> ascii) (s : string) : string :=
  match s with
  | EmptyString => EmptyString
  | String a s' => String (f a) (map_chars f s')
  end.

(** ["".join(f(i) for i in s)]. *)
Fixpoint concat_map (f : ascii -> string) (s : string) : string :=
  match s with
  | EmptyString => EmptyString
  | String a s' => f a +:+ concat_map f s'
  end.

Definition is_empty (s : string) : bool :=
  match s with EmptyString => true | _ => false end.

Definition in_list (s : string) (l : list string) : bool :=
  existsb (String.eqb s) l.

End Str.

(** ** Character classes *)

Module Chr.

Definition code (c : ascii) : N := N_of_ascii c.

Definition between (lo hi : N) (c : ascii) : bool :=
  ((lo <=? code c) && (code c <=? hi))%N.

Definition is_upper := between 65 90.
Definition is_lower := between 97 122.
Definition is_digit := between 48 57.
Definition is_ascii (c : ascii) : bool := (code c <? 128)%N.
(** [c.isascii() and c.isalpha()]. *)
Definition is_ascii_alpha (c : ascii) : bool := is_upper c || is_lower c.

(** [c.lower()] on ASCII. *)
Definition lower (c : ascii) : ascii :=
  if is_upper c then ascii_of_N (code c + 32) else c.

Definition hex_digit (n : N) : ascii :=
  if (n <? 10)%N then ascii_of_N (48 + n) else ascii_of_N (55 + n).

End Chr.

(** ** [urllib.parse] (CPython 3.11): the functions [modify_verify_url] calls *)

Module UrlParse.

Definition uses_relative : list string :=
  [""; "ftp"; "http"; "gopher"; "nntp"; "imap"; "wais"; "file"; "https";
   "shttp"; "mms"; "prospero"; "rtsp"; "rtspu"; "sftp"; "svn"; "svn+ssh";
   "ws"; "wss"].

Definition uses_netloc : list string :=
  [""; "ftp"; "http"; "gopher"; "nntp"; "telnet"; "imap"; "wais"; "file";
   "mms"; "https"; "shttp"; "snews"; "prospero"; "rtsp"; "rtspu"; "rsync";
   "svn"; "svn+ssh"; "sftp"; "nfs"; "git"; "git+ssh"; "ws"; "wss"].

Definition uses_params : list string :=
  [""; "ftp"; "hdl"; "prospero"; "http"; "imap"; "https"; "shttp"; "rtsp";
   "rtspu"; "sip"; "sips"; "mms"; "sftp"; "tel"].

(** [scheme_chars]: letters, digits and [+-.]. *)
Definition is_scheme_char (c : ascii) : bool :=
  Chr.is_lower c || Chr.is_upper c || Chr.is_digit c || Str.has_char c "+-.".

(** [_WHATWG_C0_CONTROL_OR_SPACE]: the characters 0x00 to 0x20. *)
Definition is_c0_control_or_space (c : ascii) : bool := (Chr.code c <=? 32)%N.

(** [_UNSAFE_URL_BYTES_TO_REMOVE]: tab, carriage return, line feed. *)
Definition remove_unsafe (s : string) : string :=
  Str.remove_char "010"%char
    (Str.remove_char "013"%char (Str.remove_char "009"%char s)).

Record SplitResult := mkSplit {
  split_scheme : string;
  split_netloc : string;
  split_path : string;
  split_query : string;
  split_fragment : string
}.

Record ParseResult := mkParse {
  scheme : string;
  netloc : string;
  path : string;
  params : string;
  query : string;
  fragment : string
}.

(** [_splitnetloc(url, start)]. *)
Definition splitnetloc (url : string) (start : nat) : string * string :=
  let delim :=
    fold_left
      (fun delim c =>
         match Str.find_from c start url with
         | Some wdelim => Nat.min delim wdelim
         | None => delim
         end)
      ["/"%char; "?"%char; "#"%char] (String.length url) in
  (Str.take (delim - start) (Str.drop start url), Str.drop delim url).

(** [_splitparams(url)], called only when [';' in url]. *)
Definition splitparams (url : string) : string * string :=
  if Str.has_char "/" url then
    match Str.find_from ";" (default 0 (Str.rfind "/" url)) url with
    | Some i => (Str.take i url, Str.drop (S i) url)
    | None => (url, EmptyString)
    end
  else
    match Str.find ";" url with
    | Some i => (Str.take i url, Str.drop (S i) url)
    | None => (url, EmptyString)
    end.

Section Parsing.

(** [check_bracketed_host h] is [true] when [_check_bracketed_host(h)]
    returns without raising (it consults [ipaddress] and a regular
    expression); [nfkc] is [unicodedata.normalize('NFKC', _)]. *)
Variable check_bracketed_host : string -> bool.
Variable nfkc : string -> string.

(** [_check_bracketed_netloc(netloc)]. *)
Definition check_bracketed_netloc (netloc : string) : result unit :=
  let hostname_and_port := Str.after_last "@" netloc in
  let '(before_bracket, have_open_br, bracketed) :=
    Str.partition "[" hostname_and_port in
  if have_open_br then
    if negb (Str.is_empty before_bracket) then Raised ValueError
    else
      let '(hostname, _, port) := Str.partition "]" bracketed in
      if negb (Str.is_empty port) && negb (Str.startswith ":" port)
      then Raised ValueError
      else if check_bracketed_host hostname then Returned tt
           else Raised ValueError
  else
    let '(hostname, _, _) := Str.partition ":" hostname_and_port in
    if check_bracketed_host hostname then Returned tt
    else Raised ValueError.

(** [_checknetloc(netloc)]. *)
Definition checknetloc (netloc : string) : result unit :=
  if Str.is_empty netloc || Str.forall_chars Chr.is_ascii netloc
  then Returned tt
  else
    let n :=
      Str.remove_char "?"
        (Str.remove_char "#"
           (Str.remove_char ":" (Str.remove_char "@" netloc))) in
    let netloc2 := nfkc n in
    if String.eqb n netloc2 then Returned tt
    else if existsb (fun c => Str.has_char c netloc2)
              ["/"%char; "?"%char; "#"%char; "@"%char; ":"%char]
         then Raised ValueError
         else Returned tt.

(** The scheme block of [urlsplit]: with [i = url.find(':')], when
    [i > 0], [url[0]] is an ASCII letter and [url[:i]] consists of scheme
    characters, the scheme is [url[:i].lower()] and the rest is
    [url[i+1:]]. *)
Definition split_off_scheme (url scheme : string) : string * string :=
  match Str.find ":" url, url with
  | Some (S i), String c0 _ =>
      if Chr.is_ascii_alpha c0
         && Str.forall_chars is_scheme_char (Str.take (S i) url)
      then (Str.map_chars Chr.lower (Str.take (S i) url), Str.drop (S (S i)) url)
      else (scheme, url)
  | _, _ => (scheme, url)
  end.

(** The block [if url[:2] == '//'] of [urlsplit]: the netloc and the
    rest. *)
Definition split_off_netloc (url : string) : result (string * string) :=
  if String.eqb (Str.take 2 url) "//" then
    let '(netloc, rest) := splitnetloc url 2 in
    let open_br := Str.has_char "[" netloc in
    let close_br := Str.has_char "]" netloc in
    if (open_br && negb close_br) || (close_br && negb open_br)
    then Raised ValueError
    else if open_br && close_br
         then _ ← check_bracketed_netloc netloc; mret (netloc, rest)
         else mret (netloc, rest)
  else mret (EmptyString, url).

(** [url, x = url.split(c, 1)] when [c in url]. *)
Definition split_off (c : ascii) (url : string) : string * string :=
  if Str.has_char c url then Str.split_once c url else (url, EmptyString).

(** [urlsplit(url, scheme)], with [allow_fragments=True]. *)
Definition urlsplit (url scheme : string) : result SplitResult :=
  let url := Str.lstrip is_c0_control_or_space url in
  let scheme := Str.strip is_c0_control_or_space scheme in
  let url := remove_unsafe url in
  let scheme := remove_unsafe scheme in
  let '(scheme, url) := split_off_scheme url scheme in
  '(netloc, url) ← split_off_netloc url;
  let '(url, fragment) := split_off "#" url in
  let '(url, query) := split_off "?" url in
  _ ← checknetloc netloc;
  mret (mkSplit scheme netloc url query fragment).

(** [urlparse(url, scheme)]. *)
Definition urlparse (url scheme : string) : result ParseResult :=
  sr ← urlsplit url scheme;
  let scheme := split_scheme sr in
  let url := split_path sr in
  let '(url, params) :=
    if Str.in_list scheme uses_params && Str.has_char ";" url
    then splitparams url
    else (url, EmptyString) in
  mret (mkParse scheme (split_netloc sr) url params
                (split_query sr) (split_fragment sr)).

(** [urlunsplit((scheme, netloc, url, query, fragment))]. *)
Definition urlunsplit (scheme netloc url query fragment : string) : string :=
  let url :=
    if negb (Str.is_empty netloc)
       || (negb (Str.is_empty scheme) && Str.in_list scheme uses_netloc
           && negb (String.eqb (Str.take 2 url) "//"))
    then
      let url :=
        if negb (Str.is_empty url) && negb (String.eqb (Str.take 1 url) "/")
        then "/" +:+ url else url in
      "//" +:+ netloc +:+ url
    else url in
  let url := if negb (Str.is_empty scheme) then scheme +:+ ":" +:+ url else url in
  let url := if negb (Str.is_empty query) then url +:+ "?" +:+ query else url in
  if negb (Str.is_empty fragment) then url +:+ "#" +:+ fragment else url.

(** [urlunparse((scheme, netloc, url, params, query, fragment))]. *)
Definition urlunparse (p : ParseResult) : string :=
  let url :=
    if negb (Str.is_empty (params p)) then path p +:+ ";" +:+ params p
    else path p in
  urlunsplit (scheme p) (netloc p) url (query p) (fragment p).

(** [segments[1:-1] = filter(None, segments[1:-1])]. *)
Definition filter_middle (segments : list string) : list string :=
  match segments with
  | first :: (_ :: _) as rest =>
      first :: filter (fun s => negb (Str.is_empty s)) (removelast rest)
        ++ [List.last rest EmptyString]
  | _ => segments
  end.

(** The [for seg in segments] loop of [urljoin]; [resolved_path.pop()]
    on an empty list raises [IndexError], which the loop ignores. *)
Fixpoint resolve_segments (segments resolved_path : list string) : list string :=
  match segments with
  | [] => resolved_path
  | seg :: rest =>
      if String.eqb seg ".." then resolve_segments rest (removelast resolved_path)
      else if String.eqb seg "." then resolve_segments rest resolved_path
      else resolve_segments rest (resolved_path ++ [seg])
  end.

(** The path resolution of [urljoin], from [base_parts = bpath.split('/')]
    to ['/'.join(resolved_path) or '/'], for the base path [bpath] and a
    relative [path]. *)
Definition resolve_path (bpath path : string) : string :=
  let base_parts := Str.split_char "/" bpath in
  let base_parts :=
    if negb (String.eqb (List.last base_parts EmptyString) EmptyString)
    then removelast base_parts else base_parts in
  let segments :=
    if String.eqb (Str.take 1 path) "/"
    then Str.split_char "/" path
    else filter_middle (base_parts ++ Str.split_char "/" path) in
  let resolved_path := resolve_segments segments [] in
  let resolved_path :=
    if Str.in_list (List.last segments EmptyString) ["."; ".."]
    then resolved_path ++ [EmptyString] else resolved_path in
  let joined := Str.join "/" resolved_path in
  if Str.is_empty joined then "/" else joined.

(** [urljoin(base, url)]. *)
Definition urljoin (base url : string) : result string :=
  if Str.is_empty base then mret url
  else if Str.is_empty url then mret base
  else
    b ← urlparse base EmptyString;
    u ← urlparse url (scheme b);
    if negb (String.eqb (scheme u) (scheme b))
       || negb (Str.in_list (scheme u) uses_relative)
    then mret url
    else
      let keep_netloc :=
        Str.in_list (scheme u) uses_netloc && negb (Str.is_empty (netloc u)) in
      if keep_netloc then mret (urlunparse u)
      else
        let netloc' :=
          if Str.in_list (scheme u) uses_netloc then netloc b else netloc u in
        if Str.is_empty (path u) && Str.is_empty (params u) then
          let query' := if Str.is_empty (query u) then query b else query u in
          mret (urlunparse
                  (mkParse (scheme u) netloc' (path b) (params b) query'
                           (fragment u)))
        else
          mret (urlunparse
                  (mkParse (scheme u) netloc' (resolve_path (path b) (path u))
                           (params u) (query u) (fragment u))).

End Parsing.

(** *** [quote] with the default [safe='/'] *)

(** [_ALWAYS_SAFE]: letters, digits and [_.-~]. *)
Definition is_always_safe (c : ascii) : bool :=
  Chr.is_upper c || Chr.is_lower c || Chr.is_digit c || Str.has_char c "_.-~".

(** The quoter of [quote_from_bytes] on one byte: the byte itself when it
    is safe, ['%{:02X}'.format(b)] otherwise. *)
Definition quote_byte (b : ascii) : string :=
  if is_always_safe b || Ascii.eqb b "/" then Str.of_char b
  else String "%" (String (Chr.hex_digit (Chr.code b / 16))
                     (String (Chr.hex_digit (Chr.code b mod 16)) EmptyString)).

End UrlParse.

(** ** The parsed document ([BeautifulSoup]) *)

Module Soup.

(** An element of the tree: its name, its attributes and its child
    elements in document order (text nodes play no part here). *)
#[warnings="-register-all"] Inductive Tag : Type :=
  | mkTag (name : string) (attrs : list (string * string)) (children : list Tag).

Definition name (t : Tag) : string := match t with mkTag n _ _ => n end.
Definition attrs (t : Tag) : list (string * string) :=
  match t with mkTag _ a _ => a end.

(** [tag.get(key)]: the attribute's value, [None] when it is absent. *)
Fixpoint lookup_attr (key : string) (l : list (string * string)) : option string :=
  match l with
  | [] => None
  | (k, v) :: rest => if String.eqb k key then Some v else lookup_attr key rest
  end.
Definition get (key : string) (t : Tag) : option string :=
  lookup_attr key (attrs t).

(** The elements named [n] among [t] and its descendants, in document
    order. *)
Fixpoint find_all_from (n : string) (t : Tag) : list Tag :=
  match t with
  | mkTag m _ children =>
      (if String.eqb m n then [t] else []) ++ flat_map (find_all_from n) children
  end.

(** A document is the sequence of its top-level elements;
    [soup.find_all(n)]. *)
Definition find_all (n : string) (soup : list Tag) : list Tag :=
  flat_map (find_all_from n) soup.

End Soup.

(** [for x in l: body], where the body may raise. *)
Fixpoint for_each {A S : Type} (body : S -> A -> result S) (l : list A) (s : S)
  : result S :=
  match l with
  | [] => Returned s
  | x :: rest =>
      match body s x with
      | Returned s' => for_each body rest s'
      | Raised e => Raised e
      end
  end.

(** ** The methods of [Spider] that work on strings and on the parsed tree *)

Module Spider.

(** The [return] statement through which [modify_verify_url] leaves. *)
Inductive exit_point : Type :=
  | ReturnUrl            (* line 188: [url] was valid as given *)
  | ReturnValidHref      (* line 201: the joined and stripped link *)
  | ReturnUrlAfterQuote  (* line 203: the quoted [url] was valid *)
  | ReturnEmpty.         (* line 205 *)

Section Methods.

(** [validators_url s] is the truth value of [validators.url(s)]. *)
Variable validators_url : string -> bool.
Variable check_bracketed_host : string -> bool.
Variable nfkc : string -> string.

Local Abbreviation urljoin := (UrlParse.urljoin check_bracketed_host nfkc).
Local Abbreviation urlparse := (UrlParse.urlparse check_bracketed_host nfkc).

(** [modify_verify_url(root, url)], together with the exit taken. *)
Definition modify_verify_url_exit (root url : string)
  : result (exit_point * string) :=
  if validators_url url then mret (ReturnUrl, url)
  else
    let clean_href := Str.concat_map UrlParse.quote_byte url in
    if negb (validators_url clean_href) then
      href ← urljoin root clean_href;
      parsed_href ← urlparse href EmptyString;
      let valid_href :=
        UrlParse.scheme parsed_href +:+ "://" +:+ UrlParse.netloc parsed_href
          +:+ UrlParse.path parsed_href in
      if validators_url valid_href then mret (ReturnValidHref, valid_href)
      else mret (ReturnEmpty, EmptyString)
    else mret (ReturnUrlAfterQuote, url).

Definition modify_verify_url (root url : string) : result string :=
  r ← modify_verify_url_exit root url; mret (snd r).

(** Lines 195-198 on their own: scheme, netloc and path of a parsed
    link, that is the link without params, query and fragment. *)
Definition strip_url (url : string) : result string :=
  p ← urlparse url EmptyString;
  mret (UrlParse.scheme p +:+ "://" +:+ UrlParse.netloc p +:+ UrlParse.path p).

(** The body of the loop of [get_all_sublinks_from_soup]. *)
Definition sublinks_body (root : string) (temp_set : gset string)
    (a_tag : Soup.Tag) : result (gset string) :=
  match Soup.get "href" a_tag with
  | None => mret temp_set
  | Some href =>
      if String.eqb href "" then mret temp_set
      else
        clean_href ← modify_verify_url root href;
        if negb (String.eqb clean_href "")
           && negb (Str.contains "mailto" clean_href)
        then mret ({[clean_href]} ∪ temp_set)
        else mret temp_set
  end.

(** [get_all_sublinks_from_soup(soup)], for a spider whose [root]
    attribute is [root]. *)
Definition get_all_sublinks_from_soup (root : string) (soup : list Soup.Tag)
  : result (gset string) :=
  for_each (sublinks_body root) (Soup.find_all "a" soup) ∅.

End Methods.

(** The body of the loop of [get_all_images_from_soup]: the state is
    [(temp_set, temp_links)]. *)
Definition images_body
    (st : gset (option string * option string) * list (option string))
    (a_tag : Soup.Tag)
  : gset (option string * option string) * list (option string) :=
  let '(temp_set, temp_links) := st in
  let src := Soup.get "src" a_tag in
  if bool_decide (src ∈ temp_links) then st
  else ({[(Soup.get "alt" a_tag, src)]} ∪ temp_set, temp_links ++ [src]).

(** [get_all_images_from_soup(soup)]. *)
Definition get_all_images_from_soup (soup : list Soup.Tag)
  : gset (option string * option string) :=
  fst (fold_left images_body (Soup.find_all "img" soup) (∅, [])).

(** The first element of [imgs], in document order, whose [src] attribute
    is [src]. *)
Fixpoint first_with_src (src : option string) (imgs : list Soup.Tag)
  : option Soup.Tag :=
  match imgs with
  | [] => None
  | t :: rest =>
      if decide (Soup.get "src" t = src) then Some t else first_with_src src rest
  end.

End Spider.

(** ** The browser session and [get_elements_xpaths] *)

Module Browser.

(** A located element: an opaque handle. *)
Record WebElement : Type := mkElement { element_id : string }.

(** What the program observes of the Selenium driver: the address of the
    loaded page, and [find_element(By.XPATH, path)] on the loaded document,
    where [None] stands for [NoSuchElementException]. *)
Record WebDriver : Type := mkDriver {
  current_url : string;
  find_element : string -> option WebElement
}.

(** The values the local variable [element] can hold. *)
Inductive value : Type :=
  | PyNone
  | PyElement (e : WebElement).

(** [v != None]. *)
Definition is_not_none (v : value) : bool :=
  match v with PyNone => false | PyElement _ => true end.

(** The variables of the loop of [get_elements_xpaths]; [element] is
    [None] as long as no assignment to the local has been executed. *)
Record xpath_state : Type := mkXpathState {
  index : nat;
  element : option value;
  list_of_elements : list value
}.

Inductive control : Type := Continue | Break.

Section Session.

(** [driver_get d url] is the driver once [d.get(url)] has returned or
    raised. *)
Variable driver_get : WebDriver -> string -> WebDriver.

(** [__optimize_selenium_driver__(webpage_url)]: an exception of [get] is
    caught and handed back as the return value, which no caller reads. *)
Definition __optimize_selenium_driver__ (d : WebDriver) (webpage_url : string)
  : WebDriver :=
  if negb (String.eqb (current_url d) webpage_url) then driver_get d webpage_url
  else d.

(** [path_of_elements[0] + '[' + str(index) + ']' + path_of_elements[1]]. *)
Definition current_path (path_of_elements : list string) (index : nat)
  : result string :=
  match path_of_elements with
  | p0 :: p1 :: _ => Returned (p0 +:+ "[" +:+ pretty index +:+ "]" +:+ p1)
  | _ => Raised IndexError
  end.

(** One pass through the body of the [while True] loop. *)
Definition xpath_body (d : WebDriver) (path_of_elements : list string)
    (st : xpath_state) : result (xpath_state * control) :=
  p ← current_path path_of_elements (index st);
  (* try: element = find_element(...)  except NoSuchElementException: pass *)
  let element' :=
    match find_element d p with
    | Some e => Some (PyElement e)
    | None => element st
    end in
  match element' with
  | None => Raised UnboundLocalError
  | Some v =>
      if is_not_none v
      then mret (mkXpathState (S (index st)) element' (list_of_elements st ++ [v]),
                 Continue)
      else mret (mkXpathState (index st) element' (list_of_elements st), Break)
  end.

(** The loop, for at most [fuel] passes, then [return list_of_elements]. *)
Fixpoint xpath_loop (fuel : nat) (d : WebDriver) (path_of_elements : list string)
    (st : xpath_state) : option (result (list value)) :=
  match fuel with
  | O => None
  | S fuel' =>
      match xpath_body d path_of_elements st with
      | Raised e => Some (Raised e)
      | Returned (st', Break) => Some (Returned (list_of_elements st'))
      | Returned (st', Continue) => xpath_loop fuel' d path_of_elements st'
      end
  end.

(** The state after [n] passes, when none of them raised or left the loop. *)
Fixpoint xpath_after (n : nat) (d : WebDriver) (path_of_elements : list string)
    (st : xpath_state) : option xpath_state :=
  match n with
  | O => Some st
  | S n' =>
      match xpath_body d path_of_elements st with
      | Returned (st', Continue) => xpath_after n' d path_of_elements st'
      | _ => None
      end
  end.

Definition xpath_init : xpath_state := mkXpathState 1 None [].

(** [get_elements_xpaths(webpage, xpath)] on a spider whose driver is [d]. *)
Definition get_elements_xpaths (fuel : nat) (d : WebDriver) (webpage xpath : string)
  : option (result (list value)) :=
  let path_of_elements := Str.split "[INDEX]" xpath in
  let d := __optimize_selenium_driver__ d webpage in
  xpath_loop fuel d path_of_elements xpath_init.

End Session.

End Browser.

(** ** [_scroll_down_pages]

    Line 273 of the source, the call of [__optimize_selenium_driver__], is
    indented with tabs where the rest of the body uses spaces; it is read
    here as the first statement of the body.  The loop is modelled from the
    loaded page on. *)

Module Scroll.

(** Python's [float]: IEEE 754 binary64, operations rounded to nearest,
    ties to even. *)
Definition float : Type := spec_float.
Definition prec : Z := 53.
Definition emax : Z := 1024.
Definition fadd : float -> float -> float := SFadd prec emax.
Definition fmul : float -> float -> float := SFmul prec emax.
Definition fdiv : float -> float -> float := SFdiv prec emax.
(** [float(z)]. *)
Definition of_int (z : Z) : float := binary_normalize prec emax z 0 false.


(** The page as the loop sees it: the answers to the [k]-th reading of
    [document.body.scrollHeight] and of the number of
    [window.performance.getEntries()]; reading 0 is the one before the
    loop. *)
Record page : Type := mkPage {
  scroll_height_at : nat -> Z;
  entries_at : nat -> nat
}.

(** The variables of the loop, the number of passes made, whether the
    last pass ended in [break], and the [window.scrollTo(start_y,
    scroll_dist)] calls issued so far. *)
Record scroll_state : Type := mkScrollState {
  r : nat;
  counter : float;
  multiplier : float;
  start_y : float;
  passes : nat;
  stopped : bool;
  scrolls : list (float * float)
}.

(** The state when the loop is entered: [counter = 1], [multiplier = 0],
    [start_y = 0], [r] the first reading. *)
Definition scroll_init (p : page) : scroll_state :=
  mkScrollState (entries_at p 0) (of_int 1) (of_int 0) (of_int 0) 0 false [].

(** One pass through the body of the [while True] loop. *)
Definition scroll_body (p : page) (st : scroll_state) : scroll_state :=
  let counter := fdiv (counter st) (of_int 2) in
  let multiplier := fadd (multiplier st) counter in
  let k := S (passes st) in
  let scroll_height := scroll_height_at p k in
  let scroll_dist := fmul (of_int scroll_height) multiplier in
  let scrolls := scrolls st ++ [(start_y st, scroll_dist)] in
  let q := entries_at p k in
  if Nat.eqb q (r st)
  then mkScrollState (r st) counter multiplier (start_y st) k true scrolls
  else mkScrollState q counter multiplier scroll_dist k false scrolls.

(** The loop, for at most [fuel] passes. *)
Fixpoint scroll_loop (fuel : nat) (p : page) (st : scroll_state)
  : option scroll_state :=
  match fuel with
  | O => None
  | S fuel' =>
      let st' := scroll_body p st in
      if stopped st' then Some st' else scroll_loop fuel' p st'
  end.

(** [_scroll_down_pages(webpage)], seen from the loaded page: the state in
    which the loop is left. *)
Definition _scroll_down_pages (fuel : nat) (p : page) : option scroll_state :=
  scroll_loop fuel p (scroll_init p).








End Scroll.

(** ** Shapes of links, for the statements about joined links *)

(** A string that is empty or ends with a slash. *)
Fixpoint slash_terminated (s : string) : bool :=
  match s with
  | EmptyString => true
  | String a s' =>
      match s' with
      | EmptyString => Ascii.eqb a "/"
      | _ => slash_terminated s'
      end
  end.

(** What precedes the last segment of a joined link: no fragment or query
    mark, and a slash at the end unless it is empty. *)
Definition good_prefix (pre : string) : Prop :=
  Str.has_char "#" pre = false /\ Str.has_char "?" pre = false
  /\ slash_terminated pre = true.

(** The characters of a path segment that no step of the parser reacts to. *)
Definition is_plain (c : ascii) : bool :=
  negb (Str.has_char c ":/?#;[]") && negb (UrlParse.is_c0_control_or_space c).


(** Free of fragment and query marks. *)
Definition no_marks (s : string) : Prop :=
  Str.has_char "#" s = false /\ Str.has_char "?" s = false.

(** ** Concrete inputs on which the program is run below *)

Module Examples.

(** A page whose activity count is 12 at every reading: the readings
    [12, 12] of the loop's first pass. *)
Definition quiet_page : Scroll.page :=
  Scroll.mkPage (fun _ => 1000%Z) (fun _ => 12).

(** A page of height 1000 on which every reading of the activity count
    differs from the one before. *)
Definition busy_page : Scroll.page :=
  Scroll.mkPage (fun _ => 1000%Z) (fun k => k).

(** A page whose count changes twice and then settles: [3, 5, 9, 9]. *)
Definition settling_page : Scroll.page :=
  Scroll.mkPage (fun _ => 1000%Z)
    (fun k => match k with 0 => 3 | 1 => 5 | _ => 9 end).

(** A document with [n] list items, located by [//ul/li[i]/a] for
    [1 <= i <= n] and by no other path. *)
Definition list_page (n : nat) (path : string) : option Browser.WebElement :=
  match List.find (fun i => String.eqb path ("//ul/li[" +:+ pretty i +:+ "]/a"))
                  (seq 1 n) with
  | Some i => Some (Browser.mkElement ("item-" +:+ pretty i))
  | None => None
  end.

(** A document with a gap: an item at index 2 and none at index 1. *)
Definition gap_page (path : string) : option Browser.WebElement :=
  if String.eqb path "//ul/li[2]/a" then Some (Browser.mkElement "item-2")
  else None.

(** A browser in which every address shows the document [doc]. *)
Definition serve (doc : string -> option Browser.WebElement)
  : Browser.WebDriver -> string -> Browser.WebDriver :=
  fun _ url => Browser.mkDriver url doc.

(** A freshly started driver. *)
Definition blank : Browser.WebDriver :=
  Browser.mkDriver "data:," (fun _ => None).

(** Two images with the same [src] and different [alt] texts, the second
    one nested deeper in the tree. *)
Definition two_images : list Soup.Tag :=
  [Soup.mkTag "body" []
     [Soup.mkTag "img" [("src", "/a.png"); ("alt", "first")] [];
      Soup.mkTag "p" []
        [Soup.mkTag "img" [("alt", "second"); ("src", "/a.png")] []]]].

(** A stand-in for [validators.url], used to run the program on the
    examples: it accepts [http://], [https://] or [ftp://], then a host
    made of letters, digits, [-] and [.] with at least one dot, then
    printable ASCII characters only.  The package accepts more (user
    information, ports, address literals, international names); on the
    strings used below the two agree. *)
Definition is_host_char (c : ascii) : bool :=
  Chr.is_lower c || Chr.is_upper c || Chr.is_digit c || Str.has_char c "-.".

Definition is_printable (c : ascii) : bool := Chr.between 33 126 c.

Definition accepts_after_scheme (rest : string) : bool :=
  let '(host, tail) := UrlParse.splitnetloc ("//" +:+ rest) 2 in
  negb (Str.is_empty host) && Str.forall_chars is_host_char host
  && Str.has_char "." host && Str.forall_chars is_printable tail.

Definition reference_validator (s : string) : bool :=
  existsb
    (fun scheme =>
       Str.startswith scheme s
       && accepts_after_scheme (Str.drop (String.length scheme) s))
    ["http://"; "https://"; "ftp://"].

(** Stand-ins for the host check of [ipaddress] and for NFKC
    normalisation; no example has a bracketed or non-ASCII host, so
    neither is consulted. *)
Definition reject_bracketed_host : string -> bool := fun _ => false.
Definition ascii_nfkc : string -> string := fun s => s.

(** The root and the links of the end-to-end examples. *)
Definition shop_root : string := "https://example.com/shop".
Definition item_href : string := "/item?ref=1#top".
Definition item_url : string := "https://example.com/item?ref=1#top".
Definition mailto_href : string := "mailto:a@b.com".

(** A page with a mail link, an empty link, an anchor without [href] and
    two links to the same page. *)
Definition links_page : list Soup.Tag :=
  [Soup.mkTag "body" []
     [Soup.mkTag "a" [("href", "mailto:a@b.com")] [];
      Soup.mkTag "a" [("href", "")] [];
      Soup.mkTag "a" [("name", "top")] [];
      Soup.mkTag "div" []
        [Soup.mkTag "a" [("href", "https://example.com/about")] [];
         Soup.mkTag "a" [("href", "about")] []]]].

End Examples.

(** ** The methods of [Spider] that read the live page *)

Module Selenium.

(** How a call of one of these methods can fail. *)
Inductive failure : Type :=
  | TypeError                   (* a value that is no function was called *)
  | NoSuchElementException      (* [find_element] found nothing *)
  | AttributeError              (* a method was called on [None] *)
  | Normalisation (e : exn).    (* raised inside [get_all_sublinks_from_soup] *)

Inductive answer (A : Type) : Type :=
  | Answer (a : A)
  | Failed (f : failure).
Arguments Answer {A} a.
Arguments Failed {A} f.

(** [l.startswith("https:") or l.startswith("http:")]. *)
Definition is_web_link (l : string) : bool :=
  Str.startswith "https:" l || Str.startswith "http:" l.


Section Live.

Variable validators_url : string -> bool.
Variable check_bracketed_host : string -> bool.
Variable nfkc : string -> string.

(** The driver, as far as these methods use it: [get], [page_source],
    [find_elements(By.XPATH, path)] and [element.get_attribute(name)];
    [BeautifulSoup] is the parser applied to the page source. *)
Variable driver_get : Browser.WebDriver -> string -> Browser.WebDriver.
Variable page_source : Browser.WebDriver -> string.
Variable BeautifulSoup : string -> list Soup.Tag.
Variable find_elements : Browser.WebDriver -> string -> list Browser.WebElement.
Variable get_attribute : Browser.WebElement -> string -> option string.

(** [if webpage != "": self.__optimize_selenium_driver__(webpage)]. *)
Definition visit (d : Browser.WebDriver) (webpage : string) : Browser.WebDriver :=
  if negb (String.eqb webpage "")
  then Browser.__optimize_selenium_driver__ driver_get d webpage
  else d.



(** The loop of [get_all_sublinks_selenium_by_xpath]: [thing.startswith]
    on an absent attribute raises [AttributeError]. *)
Fixpoint xpath_links_loop (href_elements : list Browser.WebElement)
    (temp_set : gset string) : answer (gset string) :=
  match href_elements with
  | [] => Answer temp_set
  | e :: rest =>
      match get_attribute e "href" with
      | None => Failed AttributeError
      | Some thing =>
          xpath_links_loop rest
            (if is_web_link thing then {[thing]} ∪ temp_set else temp_set)
      end
  end.

(** [get_all_sublinks_selenium_by_xpath(webpage)]. *)
Definition get_all_sublinks_selenium_by_xpath (d : Browser.WebDriver)
    (webpage : string) : answer (gset string) :=
  let d := visit d webpage in
  xpath_links_loop (find_elements d "//a[@href]") ∅.

(** The loop of [get_attributes_from_selenium_using_xpath]: a value other
    than the empty string, [None] included, is recorded. *)
Fixpoint attributes_loop (element : Browser.WebElement) (attributes : list string)
    (attribute_tuples : list (string * option string))
  : list (string * option string) :=
  match attributes with
  | [] => attribute_tuples
  | attr :: rest =>
      let path := get_attribute element attr in
      attributes_loop element rest
        (if bool_decide (path = Some "") then attribute_tuples
         else attribute_tuples ++ [(attr, path)])
  end.

(** [get_attributes_from_selenium_using_xpath(xpath, attributes)]. *)
Definition get_attributes_from_selenium_using_xpath (d : Browser.WebDriver)
    (xpath : string) (attributes : list string)
  : answer (list (string * option string)) :=
  match Browser.find_element d xpath with
  | None => Failed NoSuchElementException
  | Some element => Answer (attributes_loop element attributes [])
  end.

End Live.

End Selenium.

(** ** Concrete inputs for the methods that read the live page *)

Module LiveExamples.

(** A driver whose live document has three anchors and one image. *)
Definition anchors_of : Browser.WebDriver -> string -> list Browser.WebElement :=
  fun _ path =>
    if String.eqb path "//a[@href]"
    then [Browser.mkElement "a1"; Browser.mkElement "a2"; Browser.mkElement "a3"]
    else [].

Definition attribute_of (e : Browser.WebElement) (name : string) : option string :=
  if String.eqb (Browser.element_id e) "a1" && String.eqb name "href"
  then Some "https://example.com/about"
  else if String.eqb (Browser.element_id e) "a2" && String.eqb name "href"
  then Some "mailto:a@b.com"
  else if String.eqb (Browser.element_id e) "a3" && String.eqb name "href"
  then Some "http://example.com/"
  else if String.eqb (Browser.element_id e) "img1" && String.eqb name "src"
  then Some "/a.png"
  else if String.eqb (Browser.element_id e) "img1" && String.eqb name "alt"
  then Some ""
  else None.

(** The live document: the image is at [//img], nothing else is located
    by a single path. *)
Definition image_driver : Browser.WebDriver :=
  Browser.mkDriver "https://example.com/shop"
    (fun path => if String.eqb path "//img" then Some (Browser.mkElement "img1")
                 else None).

End LiveExamples.

(** ** Shapes used in the statements about the loops *)

(** Each scroll command starts at the target of the one before, the first
    one at [y0]. *)
Fixpoint chained (y0 : Scroll.float) (commands : list (Scroll.float * Scroll.float))
  : Prop :=
  match commands with
  | [] => True
  | (from, to) :: rest => from = y0 /\ chained to rest
  end.

(** The target of the last command issued, [y0] when there is none. *)
Definition last_target (y0 : Scroll.float)
    (commands : list (Scroll.float * Scroll.float)) : Scroll.float :=
  match last commands with
  | Some c => c.2
  | None => y0
  end.

(** What every pass of the scroll loop keeps: the commands are chained
    from 0, there is one for each pass, and while the loop runs [start_y]
    is the target of the last one. *)
Definition scroll_invariant (st : Scroll.scroll_state) : Prop :=
  chained (Scroll.of_int 0) (Scroll.scrolls st)
  /\ length (Scroll.scrolls st) = Scroll.passes st
  /\ (Scroll.stopped st = false ->
      Scroll.start_y st = last_target (Scroll.of_int 0) (Scroll.scrolls st)).

(** The characters [quote] leaves in a string: the always-safe ones, the
    slash and the percent sign of an escape. *)
Definition is_quoted_char (c : ascii) : bool :=
  UrlParse.is_always_safe c || Ascii.eqb c "/" || Ascii.eqb c "%".

(** The characters [quote] does not touch. *)
Definition is_unquoted_char (c : ascii) : bool :=
  UrlParse.is_always_safe c || Ascii.eqb c "/".

(** * Properties *)

(** ** The scroll loop *)

Section ScrollLoop.

Import Scroll.

Variable p : page.

(** The pass number and the arithmetic advance in every pass, whichever
    way the comparison goes. *)
Lemma scroll_body_passes (st : scroll_state) :
  passes (scroll_body p st) = S (passes st).
Proof. unfold scroll_body. destruct (Nat.eqb _ _); reflexivity. Qed.


(** The comparison [q == r] decides between [break] and [r = q]. *)
Lemma scroll_body_equal (st : scroll_state) :
  entries_at p (S (passes st)) = r st ->
  stopped (scroll_body p st) = true /\ r (scroll_body p st) = r st.
Proof.
  intros H. unfold scroll_body.
  rewrite (proj2 (Nat.eqb_eq _ _) H). split; reflexivity.
Qed.

Lemma scroll_body_differs (st : scroll_state) :
  entries_at p (S (passes st)) <> r st ->
  stopped (scroll_body p st) = false
  /\ r (scroll_body p st) = entries_at p (S (passes st)).
Proof.
  intros H. unfold scroll_body.
  rewrite (proj2 (Nat.eqb_neq _ _) H). split; reflexivity.
Qed.

(** From a state that holds the latest reading, the loop stops at the
    first pass whose reading repeats the previous one. *)
Lemma scroll_loop_reaches (n : nat) :
  forall st,
    r st = entries_at p (passes st) ->
    (forall k, k < n ->
               entries_at p (S (passes st + k)) <> entries_at p (passes st + k)) ->
    entries_at p (S (passes st + n)) = entries_at p (passes st + n) ->
    exists st', scroll_loop (S n) p st = Some st'
                /\ passes st' = S (passes st + n)
                /\ r st' = entries_at p (passes st + n).
Proof.
  induction n as [|n IH]; intros st Hr Hdiff Heq.
  - rewrite Nat.add_0_r in Heq.
    destruct (scroll_body_equal st) as [Hs Hr']; [congruence|].
    exists (scroll_body p st). cbn [scroll_loop]. rewrite Hs.
    rewrite scroll_body_passes, Hr', Hr, Nat.add_0_r. auto.
  - assert (H0 : entries_at p (S (passes st)) <> r st).
    { rewrite Hr. specialize (Hdiff 0 ltac:(lia)).
      rewrite Nat.add_0_r in Hdiff. exact Hdiff. }
    destruct (scroll_body_differs st H0) as [Hs Hr'].
    destruct (IH (scroll_body p st)) as (st' & Hrun & Hp & Hr'').
    + rewrite scroll_body_passes. exact Hr'.
    + intros k Hk. rewrite scroll_body_passes.
      specialize (Hdiff (S k) ltac:(lia)).
      replace (S (passes st) + k) with (passes st + S k) by lia. exact Hdiff.
    + rewrite scroll_body_passes.
      replace (S (passes st) + n) with (passes st + S n) by lia. exact Heq.
    + exists st'. change (scroll_loop (S (S n)) p st)
        with (if stopped (scroll_body p st) then Some (scroll_body p st)
              else scroll_loop (S n) p (scroll_body p st)).
      rewrite Hs, Hrun. rewrite scroll_body_passes in Hp, Hr''.
      replace (passes st + S n) with (S (passes st) + n) by lia. auto.
Qed.

Lemma scroll_loop_stopped (fuel : nat) :
  forall st st',
    r st = entries_at p (passes st) ->
    scroll_loop fuel p st = Some st' ->
    exists n, passes st' = S (passes st + n)
              /\ entries_at p (S (passes st + n)) = entries_at p (passes st + n)
              /\ forall k, k < n ->
                   entries_at p (S (passes st + k)) <> entries_at p (passes st + k).
Proof.
  induction fuel as [|fuel IH]; intros st st' Hr Hrun; [discriminate|].
  cbn [scroll_loop] in Hrun.
  destruct (Nat.eq_dec (entries_at p (S (passes st))) (r st)) as [He|Hne].
  - destruct (scroll_body_equal st He) as [Hs _]. rewrite Hs in Hrun.
    injection Hrun as <-. exists 0. rewrite scroll_body_passes, Nat.add_0_r.
    split; [reflexivity|]. split; [congruence|]. intros k Hk. lia.
  - destruct (scroll_body_differs st Hne) as [Hs Hr']. rewrite Hs in Hrun.
    destruct (IH _ _ ltac:(rewrite scroll_body_passes; exact Hr') Hrun)
      as (n & Hp & Heq & Hdiff).
    rewrite scroll_body_passes in Hp, Heq, Hdiff.
    exists (S n). replace (passes st + S n) with (S (passes st) + n) by lia.
    split; [exact Hp|]. split; [exact Heq|].
    intros [|k] Hk.
    + rewrite Nat.add_0_r. congruence.
    + replace (passes st + S k) with (S (passes st) + k) by lia.
      apply Hdiff. lia.
Qed.

End ScrollLoop.

(** C5. The loop of [_scroll_down_pages] is left in its [n+1]-th pass
    exactly when the reading of that pass equals the previous reading and
    no earlier pass saw such a repeat; a pass whose reading equals the
    recorded one stops, a pass whose reading differs records the new
    reading and goes on. *)
Theorem scroll_loop_stops_at_first_repeat (p : Scroll.page) (n : nat) :
  ((exists fuel st, Scroll._scroll_down_pages fuel p = Some st
                    /\ Scroll.passes st = S n)
   <-> (Scroll.entries_at p (S n) = Scroll.entries_at p n
        /\ forall k, k < n -> Scroll.entries_at p (S k) <> Scroll.entries_at p k))
  /\ (forall st,
        Scroll.entries_at p (S (Scroll.passes st)) = Scroll.r st ->
        Scroll.stopped (Scroll.scroll_body p st) = true)
  /\ (forall st,
        Scroll.entries_at p (S (Scroll.passes st)) <> Scroll.r st ->
        Scroll.stopped (Scroll.scroll_body p st) = false
        /\ Scroll.r (Scroll.scroll_body p st)
           = Scroll.entries_at p (S (Scroll.passes st))).
Proof.
  split; [split|split].
  - intros (fuel & st & Hrun & Hp).
    destruct (scroll_loop_stopped p fuel (Scroll.scroll_init p) st eq_refl Hrun)
      as (m & Hp' & Heq & Hdiff).
    cbn in Hp', Heq, Hdiff. assert (m = n) as -> by congruence. auto.
  - intros [Heq Hdiff].
    destruct (scroll_loop_reaches p n (Scroll.scroll_init p) eq_refl Hdiff Heq)
      as (st & Hrun & Hp & _).
    exists (S n), st. auto.
  - intros st H. apply (scroll_body_equal p st H).
  - intros st H. apply (scroll_body_differs p st H).
Qed.

(** The readings [12, 12]: the loop is left in its first pass, after the
    second reading, having issued one scroll command. *)
Example scroll_quiet_page_stops_after_second_read :
  exists st, Scroll._scroll_down_pages 1 Examples.quiet_page = Some st
             /\ Scroll.passes st = 1 /\ length (Scroll.scrolls st) = 1.
Proof. eexists. split; [reflexivity|]. split; reflexivity. Qed.

Example scroll_settling_page_stops_in_third_pass :
  Scroll._scroll_down_pages 2 Examples.settling_page = None
  /\ exists st, Scroll._scroll_down_pages 3 Examples.settling_page = Some st
                /\ Scroll.passes st = 3 /\ Scroll.r st = 9.
Proof.
  split; [reflexivity|]. eexists. split; [reflexivity|]. split; reflexivity.
Qed.

(** ** The multiplier of the scroll loop *)

Section Multiplier.

Import Scroll.











End Multiplier.

(** ** The scroll target once the multiplier is 1.0 *)

Section FullHeight.

Import Scroll.

Local Open Scope Z_scope.










End FullHeight.




(** ** Indexed enumeration *)

Section Enumeration.

Import Browser.

Variable d : WebDriver.
Variable path_of_elements : list string.

(** A located element is never [None]. *)
Lemma xpath_body_hit (st : xpath_state) (p : string) (e : WebElement) :
  current_path path_of_elements (index st) = Returned p ->
  find_element d p = Some e ->
  xpath_body d path_of_elements st
  = Returned (mkXpathState (S (index st)) (Some (PyElement e))
                           (list_of_elements st ++ [PyElement e]), Continue).
Proof. intros Hp Hf. unfold xpath_body. rewrite Hp. cbn. rewrite Hf. reflexivity. Qed.

(** A miss leaves [element] as it was: unbound in the first pass, the
    element of the last hit afterwards. *)
Lemma xpath_body_miss_unbound (st : xpath_state) (p : string) :
  current_path path_of_elements (index st) = Returned p ->
  find_element d p = None ->
  element st = None ->
  xpath_body d path_of_elements st = Raised UnboundLocalError.
Proof.
  intros Hp Hf He. unfold xpath_body. rewrite Hp. cbn. rewrite Hf, He. reflexivity.
Qed.

Lemma xpath_body_miss_bound (st : xpath_state) (p : string) (e : WebElement) :
  current_path path_of_elements (index st) = Returned p ->
  find_element d p = None ->
  element st = Some (PyElement e) ->
  xpath_body d path_of_elements st
  = Returned (mkXpathState (S (index st)) (Some (PyElement e))
                           (list_of_elements st ++ [PyElement e]), Continue).
Proof.
  intros Hp Hf He. unfold xpath_body. rewrite Hp. cbn. rewrite Hf, He. reflexivity.
Qed.

(** Once [element] holds an element, every pass continues. *)
Lemma xpath_body_bound (st : xpath_state) (e : WebElement) (p0 p1 : string)
    (rest : list string) :
  path_of_elements = p0 :: p1 :: rest ->
  element st = Some (PyElement e) ->
  exists st' e', xpath_body d path_of_elements st = Returned (st', Continue)
                 /\ element st' = Some (PyElement e')
                 /\ index st' = S (index st)
                 /\ length (list_of_elements st') = S (length (list_of_elements st)).
Proof.
  intros -> He. unfold xpath_body. cbn.
  destruct (find_element d _) as [e'|]; [|rewrite He]; cbn;
    eexists _, _; (split; [reflexivity|]); cbn; rewrite length_app; cbn;
    repeat split; lia.
Qed.

Lemma xpath_loop_bound_diverges (p0 p1 : string) (rest : list string) (fuel : nat) :
  path_of_elements = p0 :: p1 :: rest ->
  forall st e, element st = Some (PyElement e) ->
               xpath_loop fuel d path_of_elements st = None.
Proof.
  intros Hparts. induction fuel as [|fuel IH]; intros st e He; [reflexivity|].
  destruct (xpath_body_bound st e p0 p1 rest Hparts He) as (st' & e' & Hb & He' & _).
  cbn [xpath_loop]. rewrite Hb. apply (IH st' e' He').
Qed.

End Enumeration.

(** C1 on the code.  Let [path1] be the templated path at index 1 on the
    page the driver shows.  When nothing is located there, the call raises
    [UnboundLocalError] instead of returning the empty sequence; when
    something is located there, [element] keeps its last value at the
    first miss, the loop never reaches [break] and the call returns no
    sequence, of length N or any other. *)
Theorem get_elements_xpaths_returns_no_count
    (driver_get : Browser.WebDriver -> string -> Browser.WebDriver)
    (d : Browser.WebDriver) (webpage xpath path1 : string) :
  Browser.current_path (Str.split "[INDEX]" xpath) 1 = Returned path1 ->
  (Browser.find_element (Browser.__optimize_selenium_driver__ driver_get d webpage)
                        path1 = None ->
   forall fuel,
     Browser.get_elements_xpaths driver_get (S fuel) d webpage xpath
     = Some (Raised UnboundLocalError))
  /\ (Browser.find_element (Browser.__optimize_selenium_driver__ driver_get d webpage)
                           path1 <> None ->
      forall fuel,
        Browser.get_elements_xpaths driver_get fuel d webpage xpath = None).
Proof.
  intros Hpath. unfold Browser.get_elements_xpaths.
  set (d' := Browser.__optimize_selenium_driver__ driver_get d webpage).
  set (parts := Str.split "[INDEX]" xpath) in *.
  assert (Hparts : exists p0 p1 rest, parts = p0 :: p1 :: rest).
  { destruct parts as [|p0 [|p1 rest]]; try discriminate. eauto. }
  destruct Hparts as (p0 & p1 & rest & Hparts).
  split.
  - intros Hmiss fuel. cbn [Browser.xpath_loop].
    rewrite (xpath_body_miss_unbound d' parts Browser.xpath_init path1 Hpath Hmiss eq_refl).
    reflexivity.
  - intros Hhit fuel. destruct (Browser.find_element d' path1) as [e|] eqn:Hf;
      [|congruence].
    destruct fuel as [|fuel]; [reflexivity|]. cbn [Browser.xpath_loop].
    rewrite (xpath_body_hit d' parts Browser.xpath_init path1 e Hpath Hf).
    apply (xpath_loop_bound_diverges d' parts p0 p1 rest fuel Hparts) with (e := e).
    reflexivity.
Qed.

(** The theorem on a document with an item at index 2 only, and on a
    document with items at indices 1 to 3. *)
Lemma get_elements_xpaths_returns_no_count_witness :
  (forall fuel,
     Browser.get_elements_xpaths (Examples.serve Examples.gap_page) (S fuel)
       Examples.blank "https://example.com/list" "//ul/li[INDEX]/a"
     = Some (Raised UnboundLocalError))
  /\ (forall fuel,
        Browser.get_elements_xpaths (Examples.serve (Examples.list_page 3)) fuel
          Examples.blank "https://example.com/list" "//ul/li[INDEX]/a"
        = None).
Proof.
  split.
  - apply (get_elements_xpaths_returns_no_count
             (Examples.serve Examples.gap_page) Examples.blank
             "https://example.com/list" "//ul/li[INDEX]/a" "//ul/li[1]/a");
      reflexivity.
  - apply (get_elements_xpaths_returns_no_count
             (Examples.serve (Examples.list_page 3)) Examples.blank
             "https://example.com/list" "//ul/li[INDEX]/a" "//ul/li[1]/a");
      [reflexivity | discriminate].
Defined.

(** C4 on the code.  A miss is caught, but it is not the loop's stop
    condition.  In the first pass [element] is still unbound, the test
    [element != None] raises [UnboundLocalError] and the exception leaves
    the loop; in a later pass [element] still holds the previous hit, which
    is appended once more, and the loop goes on for ever. *)
Theorem locator_miss_is_no_stop_condition
    (d : Browser.WebDriver) (path_of_elements : list string)
    (st : Browser.xpath_state) (p : string) :
  Browser.current_path path_of_elements (Browser.index st) = Returned p ->
  Browser.find_element d p = None ->
  (Browser.element st = None ->
   forall fuel,
     Browser.xpath_loop (S fuel) d path_of_elements st
     = Some (Raised UnboundLocalError))
  /\ (forall e,
        Browser.element st = Some (Browser.PyElement e) ->
        Browser.xpath_body d path_of_elements st
        = Returned (Browser.mkXpathState (S (Browser.index st))
                      (Some (Browser.PyElement e))
                      (Browser.list_of_elements st ++ [Browser.PyElement e]),
                    Browser.Continue)
        /\ forall fuel, Browser.xpath_loop fuel d path_of_elements st = None).
Proof.
  intros Hpath Hmiss. split.
  - intros He fuel. cbn [Browser.xpath_loop].
    rewrite (xpath_body_miss_unbound d path_of_elements st p Hpath Hmiss He).
    reflexivity.
  - intros e He. split.
    + apply (xpath_body_miss_bound d path_of_elements st p e Hpath Hmiss He).
    + intros fuel.
      destruct path_of_elements as [|p0 [|p1 rest]] eqn:Hparts; try discriminate.
      apply (xpath_loop_bound_diverges d (p0 :: p1 :: rest) p0 p1 rest fuel
               eq_refl st e He).
Qed.

(** The theorem on a one-item document: at index 1 of an empty document,
    and at index 2 after the hit at index 1. *)
Lemma locator_miss_is_no_stop_condition_witness :
  (forall fuel,
     Browser.xpath_loop (S fuel) (Browser.mkDriver "" (Examples.list_page 0))
       ["//ul/li"; "/a"] Browser.xpath_init
     = Some (Raised UnboundLocalError))
  /\ Browser.xpath_body (Browser.mkDriver "" (Examples.list_page 1))
       ["//ul/li"; "/a"]
       (Browser.mkXpathState 2 (Some (Browser.PyElement (Browser.mkElement "item-1")))
          [Browser.PyElement (Browser.mkElement "item-1")])
     = Returned (Browser.mkXpathState 3
                   (Some (Browser.PyElement (Browser.mkElement "item-1")))
                   [Browser.PyElement (Browser.mkElement "item-1");
                    Browser.PyElement (Browser.mkElement "item-1")],
                 Browser.Continue).
Proof.
  split.
  - apply (locator_miss_is_no_stop_condition
             (Browser.mkDriver "" (Examples.list_page 0)) ["//ul/li"; "/a"]
             Browser.xpath_init "//ul/li[1]/a"); reflexivity.
  - apply (locator_miss_is_no_stop_condition
             (Browser.mkDriver "" (Examples.list_page 1)) ["//ul/li"; "/a"]
             (Browser.mkXpathState 2
                (Some (Browser.PyElement (Browser.mkElement "item-1")))
                [Browser.PyElement (Browser.mkElement "item-1")])
             "//ul/li[2]/a"); reflexivity.
Defined.

(** The state of the loop on a three-item document after five passes:
    five entries, the last three of them the third item. *)
Example xpath_three_items_after_five_passes :
  Browser.list_of_elements
    <$> Browser.xpath_after 5 (Browser.mkDriver "" (Examples.list_page 3))
          ["//ul/li"; "/a"] Browser.xpath_init
  = Some [Browser.PyElement (Browser.mkElement "item-1");
          Browser.PyElement (Browser.mkElement "item-2");
          Browser.PyElement (Browser.mkElement "item-3");
          Browser.PyElement (Browser.mkElement "item-3");
          Browser.PyElement (Browser.mkElement "item-3")].
Proof. reflexivity. Qed.

(** ** Image extraction *)

Section Images.

Import Spider.

Lemma first_with_src_app (src : option string) (l : list Soup.Tag) (x : Soup.Tag) :
  first_with_src src (l ++ [x])
  = match first_with_src src l with
    | Some t => Some t
    | None => if decide (Soup.get "src" x = src) then Some x else None
    end.
Proof.
  induction l as [|y l IH]; cbn; [reflexivity|].
  destruct (decide (Soup.get "src" y = src)); [reflexivity | exact IH].
Qed.

Lemma first_with_src_found (src : option string) (l : list Soup.Tag) (t : Soup.Tag) :
  first_with_src src l = Some t -> t ∈ l /\ Soup.get "src" t = src.
Proof.
  induction l as [|y l IH]; cbn; [discriminate|].
  destruct (decide _) as [E|_].
  - intros [= <-]. split; [left | exact E].
  - intros H. destruct (IH H). split; [now right | assumption].
Qed.

Lemma first_with_src_present (l : list Soup.Tag) (t : Soup.Tag) :
  t ∈ l -> is_Some (first_with_src (Soup.get "src" t) l).
Proof.
  induction l as [|y l IH]; intros H; [inversion H|]. cbn.
  destruct (decide _); [eauto|].
  apply IH. inversion H; subst; [congruence | assumption].
Qed.

(** The state of the loop after the images [l]: [temp_links] holds the
    sources seen, [temp_set] one pair for each of them, with the [alt] of
    its first image. *)
Lemma images_loop_invariant (l : list Soup.Tag) :
  (forall src, src ∈ snd (fold_left images_body l (∅, []))
               <-> is_Some (first_with_src src l))
  /\ (forall alt src,
        (alt, src) ∈ fst (fold_left images_body l (∅, []))
        <-> exists t, first_with_src src l = Some t /\ Soup.get "alt" t = alt).
Proof.
  induction l as [|x l [IHL IHS]] using rev_ind.
  - cbn. split.
    + intros src. split; [intros H; inversion H | intros [t H]; discriminate].
    + intros alt src. split; [set_solver | intros (t & H & _); discriminate].
  - rewrite fold_left_app. cbn [fold_left].
    destruct (fold_left images_body l (∅, [])) as [temp_set temp_links].
    cbn [fst snd] in IHL, IHS. unfold images_body.
    destruct (bool_decide (Soup.get "src" x ∈ temp_links)) eqn:Hin.
    + apply bool_decide_eq_true in Hin. apply IHL in Hin as [t0 Ht0].
      cbn [fst snd]. split.
      * intros src. rewrite first_with_src_app, IHL.
        destruct (first_with_src src l) eqn:E; [tauto|].
        destruct (decide _) as [<-|]; [congruence | tauto].
      * intros alt src. rewrite first_with_src_app, IHS.
        destruct (first_with_src src l) eqn:E; [tauto|].
        destruct (decide _) as [<-|]; [congruence | tauto].
    + apply bool_decide_eq_false in Hin.
      assert (Hnone : first_with_src (Soup.get "src" x) l = None).
      { destruct (first_with_src _ l) eqn:E; [|reflexivity].
        exfalso. apply Hin, IHL. eauto. }
      cbn [fst snd]. split.
      * intros src. rewrite first_with_src_app, elem_of_app, IHL, list_elem_of_singleton.
        destruct (first_with_src src l) eqn:E.
        -- split; eauto.
        -- destruct (decide _) as [<-|Hne].
           ++ split; eauto.
           ++ split; [intros [[? ?]|?]; [discriminate | congruence]
                     | intros [? ?]; discriminate].
      * intros alt src. rewrite first_with_src_app, elem_of_union, elem_of_singleton, IHS.
        destruct (first_with_src src l) eqn:E.
        -- split; [intros [[= -> ->]|?]; [congruence | assumption] | auto].
        -- destruct (decide _) as [<-|Hne].
           ++ split.
              ** intros [[= ->]|(t & ? & _)]; [eauto | discriminate].
              ** intros (t & [= <-] & <-). now left.
           ++ split.
              ** intros [[= _ ->]|(t & ? & _)]; [congruence | discriminate].
              ** intros (t & ? & _). discriminate.
Qed.

End Images.

(** C9. The output of [get_all_images_from_soup] holds the pair
    [(alt, src)] exactly when [alt] is the [alt] attribute of the first
    image, in document order, whose source is [src]; hence images with the
    same source contribute one pair, whatever their [alt] texts, and every
    image's source is present. *)
Theorem images_deduplicated_by_src (soup : list Soup.Tag) :
  (forall alt src,
     (alt, src) ∈ Spider.get_all_images_from_soup soup
     <-> exists t, Spider.first_with_src src (Soup.find_all "img" soup) = Some t
                   /\ Soup.get "alt" t = alt)
  /\ (forall alt1 alt2 src,
        (alt1, src) ∈ Spider.get_all_images_from_soup soup ->
        (alt2, src) ∈ Spider.get_all_images_from_soup soup ->
        alt1 = alt2)
  /\ (forall t, t ∈ Soup.find_all "img" soup ->
                exists alt, (alt, Soup.get "src" t)
                            ∈ Spider.get_all_images_from_soup soup).
Proof.
  unfold Spider.get_all_images_from_soup.
  destruct (images_loop_invariant (Soup.find_all "img" soup)) as [_ HS].
  split; [exact HS|]. split.
  - intros alt1 alt2 src H1 H2.
    apply HS in H1 as (t1 & E1 & <-). apply HS in H2 as (t2 & E2 & <-).
    congruence.
  - intros t Ht. destruct (first_with_src_present _ t Ht) as [t0 E].
    exists (Soup.get "alt" t0). apply HS. eauto.
Qed.

(** Two images with source [/a.png] and different [alt] texts: one entry,
    the first pair. *)
Example images_same_src_different_alt :
  Spider.get_all_images_from_soup Examples.two_images
  = {[ (Some "first", Some "/a.png") ]}
  /\ size (Spider.get_all_images_from_soup Examples.two_images) = 1.
Proof. split; reflexivity. Qed.

(** ** Facts about the string operations *)

Lemma append_cons (a : ascii) (s t : string) :
  String a s +:+ t = String a (s +:+ t).
Proof. reflexivity. Qed.

Lemma has_char_app (c : ascii) (s t : string) :
  Str.has_char c (s +:+ t) = Str.has_char c s || Str.has_char c t.
Proof.
  induction s as [|a s IH]; [reflexivity|].
  rewrite append_cons. cbn [Str.has_char]. rewrite IH. apply orb_assoc.
Qed.

Lemma prefix_has_char (c : ascii) (p s : string) :
  String.prefix p s = true -> Str.has_char c p = true -> Str.has_char c s = true.
Proof.
  revert s. induction p as [|a p IH]; intros s Hp Hc; [discriminate|].
  destruct s as [|b s]; [discriminate|]. cbn in Hp, Hc |- *.
  destruct (ascii_dec a b) as [<-|]; [|discriminate].
  destruct (Ascii.eqb a c); [reflexivity|]. cbn in Hc |- *. now apply IH.
Qed.

(** [quote] turns [:] into [%3A]: no colon survives. *)
Lemma quote_byte_no_colon (b : ascii) :
  Str.has_char ":" (UrlParse.quote_byte b) = false.
Proof. destruct b as [[] [] [] [] [] [] [] []]; reflexivity. Qed.

Lemma quoted_no_colon (url : string) :
  Str.has_char ":" (Str.concat_map UrlParse.quote_byte url) = false.
Proof.
  induction url as [|b url IH]; [reflexivity|].
  cbn [Str.concat_map]. rewrite has_char_app, quote_byte_no_colon, IH. reflexivity.
Qed.

Lemma reference_validator_needs_colon (s : string) :
  Examples.reference_validator s = true -> Str.has_char ":" s = true.
Proof.
  unfold Examples.reference_validator. intros H.
  apply existsb_exists in H as (scheme & Hin & H).
  apply andb_prop in H as [Hp _].
  apply (prefix_has_char ":" scheme s Hp).
  cbn in Hin. destruct Hin as [<-|[<-|[<-|[]]]]; reflexivity.
Qed.

Lemma result_bind_returned {A B : Type} (f : A -> result B) (x : A) :
  (Returned x ≫= f) = f x.
Proof. reflexivity. Qed.

(** *** Appending, cutting and searching *)

(** Appending and measuring *)
Lemma append_empty_r (s : string) : s +:+ "" = s.
Proof. induction s as [|a s IH]; [reflexivity|]. rewrite append_cons. now rewrite IH. Qed.

Lemma append_assoc (s t u : string) : (s +:+ t) +:+ u = s +:+ (t +:+ u).
Proof. induction s as [|a s IH]; [reflexivity|]. rewrite !append_cons. now rewrite IH. Qed.

Lemma length_app (s t : string) :
  String.length (s +:+ t) = String.length s + String.length t.
Proof. induction s as [|a s IH]; [reflexivity|]. rewrite append_cons. cbn. now rewrite IH. Qed.

Lemma drop_app (n : nat) (s t : string) :
  n <= String.length s -> Str.drop n (s +:+ t) = Str.drop n s +:+ t.
Proof.
  revert s. induction n as [|n IH]; intros s H.
  - destruct s; reflexivity.
  - destruct s as [|a s]; cbn in H; [lia|]. rewrite append_cons. cbn. apply IH. lia.
Qed.

Lemma take_app (n : nat) (s t : string) :
  n <= String.length s -> Str.take n (s +:+ t) = Str.take n s.
Proof.
  revert s. induction n as [|n IH]; intros s H; [reflexivity|].
  destruct s as [|a s]; cbn in H; [lia|]. rewrite append_cons. cbn. rewrite IH; [reflexivity|lia].
Qed.

Lemma take_length (s : string) : Str.take (String.length s) s = s.
Proof. induction s as [|a s IH]; [reflexivity|]. cbn. now rewrite IH. Qed.

Lemma drop_length (s : string) : Str.drop (String.length s) s = "".
Proof. induction s as [|a s IH]; [reflexivity|]. exact IH. Qed.

Lemma take_drop (n : nat) (s : string) : Str.take n s +:+ Str.drop n s = s.
Proof.
  revert s. induction n as [|n IH]; intros [|a s]; try reflexivity.
  cbn [Str.take Str.drop]. rewrite append_cons. now rewrite IH.
Qed.

(** Characters of a string *)
Lemma has_char_take (c : ascii) (n : nat) (s : string) :
  Str.has_char c s = false -> Str.has_char c (Str.take n s) = false.
Proof.
  revert s. induction n as [|n IH]; intros [|a s]; try reflexivity.
  cbn. intros H. apply orb_false_iff in H as [-> H]. now apply IH.
Qed.

Lemma has_char_drop (c : ascii) (n : nat) (s : string) :
  Str.has_char c s = false -> Str.has_char c (Str.drop n s) = false.
Proof.
  revert s. induction n as [|n IH]; intros [|a s]; try reflexivity; [easy|].
  cbn. intros H. apply orb_false_iff in H as [_ H]. now apply IH.
Qed.

Lemma find_none (c : ascii) (s : string) :
  Str.has_char c s = false -> Str.find c s = None.
Proof.
  induction s as [|a s IH]; [reflexivity|]. cbn.
  intros H. apply orb_false_iff in H as [-> H]. now rewrite IH.
Qed.

Lemma find_some (c : ascii) (s : string) (i : nat) :
  Str.find c s = Some i ->
  i < String.length s /\ Str.has_char c (Str.take i s) = false
  /\ exists t, Str.drop i s = String c t.
Proof.
  revert i. induction s as [|a s IH]; intros i; [discriminate|]. cbn.
  destruct (Ascii.eqb a c) eqn:E.
  - intros [= <-]. apply Ascii.eqb_eq in E as ->. cbn. split; [lia|]. eauto.
  - destruct (Str.find c s) as [j|]; [|discriminate]. intros [= <-].
    destruct (IH j eq_refl) as (H1 & H2 & H3). cbn. rewrite E, H2. split; [lia|]. auto.
Qed.

Lemma find_has_char (c : ascii) (s : string) (i : nat) :
  Str.find c s = Some i -> Str.has_char c s = true.
Proof.
  revert i. induction s as [|a s IH]; intros i; [discriminate|]. cbn.
  destruct (Ascii.eqb a c); [reflexivity|].
  destruct (Str.find c s) as [j|] eqn:E; [|discriminate]. intros _. now apply (IH j).
Qed.

Lemma find_app (c : ascii) (s t : string) :
  Str.has_char c t = false -> Str.find c (s +:+ t) = Str.find c s.
Proof.
  intros H. induction s as [|a s IH]; [now apply find_none|].
  rewrite append_cons. cbn. now rewrite IH.
Qed.

Lemma has_char_take_before (c : ascii) (s : string) (i n : nat) :
  Str.find c s = Some i -> n <= i -> Str.has_char c (Str.take n s) = false.
Proof.
  intros H Hn. destruct (find_some c s i H) as (_ & H2 & _).
  replace (Str.take n s) with (Str.take n (Str.take i s)); [now apply has_char_take|].
  clear -Hn. revert s i Hn. induction n as [|n IH]; intros s i Hn; [reflexivity|].
  destruct i as [|i]; [lia|]. destruct s as [|a s]; [reflexivity|]. cbn. rewrite IH; [reflexivity|lia].
Qed.

Lemma has_char_remove (c d : ascii) (s : string) :
  Str.has_char c s = false -> Str.has_char c (Str.remove_char d s) = false.
Proof.
  induction s as [|a s IH]; [reflexivity|]. cbn.
  intros H. apply orb_false_iff in H as [E H].
  destruct (Ascii.eqb a d); [now apply IH|]. cbn. rewrite E. now apply IH.
Qed.

Lemma remove_char_id (d : ascii) (t : string) :
  Str.has_char d t = false -> Str.remove_char d t = t.
Proof.
  induction t as [|b t IH]; [reflexivity|]. cbn [Str.has_char Str.remove_char].
  intros H. apply orb_false_iff in H as [-> H]. now rewrite IH.
Qed.

Lemma remove_char_app (d : ascii) (s t : string) :
  Str.has_char d t = false -> Str.remove_char d (s +:+ t) = Str.remove_char d s +:+ t.
Proof.
  intros H. induction s as [|a s IH]; [now apply remove_char_id|].
  rewrite append_cons. cbn [Str.remove_char]. destruct (Ascii.eqb a d); [exact IH|].
  rewrite append_cons. now rewrite IH.
Qed.

Lemma has_char_lstrip (c : ascii) (p : ascii -> bool) (s : string) :
  Str.has_char c s = false -> Str.has_char c (Str.lstrip p s) = false.
Proof.
  induction s as [|a s IH]; [reflexivity|]. cbn [Str.lstrip].
  destruct (p a); [|easy]. cbn. intros H. apply orb_false_iff in H as [_ H]. now apply IH.
Qed.

(** *** Prefixes that end with a slash *)

Lemma slash_terminated_tail (a : ascii) (s : string) :
  slash_terminated (String a s) = true -> slash_terminated s = true.
Proof. destruct s; [reflexivity | easy]. Qed.

Lemma slash_terminated_drop (n : nat) (s : string) :
  slash_terminated s = true -> slash_terminated (Str.drop n s) = true.
Proof.
  revert s. induction n as [|n IH]; intros [|a s] H; try easy.
  cbn [Str.drop]. apply IH. now apply slash_terminated_tail in H.
Qed.

Lemma slash_terminated_lstrip (p : ascii -> bool) (s : string) :
  slash_terminated s = true -> slash_terminated (Str.lstrip p s) = true.
Proof.
  induction s as [|a s IH]; [reflexivity|]. intros H. cbn [Str.lstrip].
  destruct (p a); [|exact H]. apply IH. now apply slash_terminated_tail in H.
Qed.

Lemma slash_terminated_remove (d : ascii) (s : string) :
  Ascii.eqb "/" d = false ->
  slash_terminated s = true -> slash_terminated (Str.remove_char d s) = true.
Proof.
  intros Hd. induction s as [|a s IH]; [reflexivity|]. intros H.
  cbn [Str.remove_char]. destruct (Ascii.eqb a d) eqn:E.
  - apply IH. now apply slash_terminated_tail in H.
  - destruct s as [|b s].
    + exact H.
    + specialize (IH H). cbn [Str.remove_char] in IH |- *.
      destruct (Ascii.eqb b d) eqn:E'.
      * destruct (Str.remove_char d s) eqn:R.
        -- (* the rest vanished: [a] must be the final slash *)
           exfalso. clear IH.
           assert (Hs : forall t, slash_terminated (String b t) = true ->
                                  Str.remove_char d (String b t) = "" -> False).
           { clear -Hd. intros t. revert b. induction t as [|c t IHt]; intros b Ht Hr.
             - cbn in Ht, Hr. apply Ascii.eqb_eq in Ht as ->. rewrite Hd in Hr. discriminate.
             - cbn [Str.remove_char] in Hr. destruct (Ascii.eqb b d); [|discriminate].
               apply (IHt c); [exact Ht | exact Hr]. }
           apply (Hs s); [exact H|]. cbn [Str.remove_char]. now rewrite E'.
        -- exact IH.
      * exact IH.
Qed.

Lemma slash_terminated_has_slash (s : string) :
  slash_terminated s = true -> s <> "" -> Str.has_char "/" s = true.
Proof.
  induction s as [|a s IH]; [easy|]. intros H _. cbn [Str.has_char].
  destruct s as [|b s].
  - cbn in H. now rewrite H.
  - rewrite IH; [apply orb_true_r | exact H | easy].
Qed.

Lemma slash_terminated_snoc (s : string) : slash_terminated (s +:+ "/") = true.
Proof.
  induction s as [|a s IH]; [reflexivity|]. rewrite append_cons.
  cbn [slash_terminated]. destruct (s +:+ "/") eqn:E; [|exact IH].
  destruct s; discriminate.
Qed.

Lemma slash_terminated_app (s t : string) :
  t <> "" -> slash_terminated (s +:+ t) = slash_terminated t.
Proof.
  intros Ht. induction s as [|a s IH]; [reflexivity|]. rewrite append_cons.
  cbn [slash_terminated]. destruct (s +:+ t) eqn:E; [|exact IH].
  destruct s; [change (t = "") in E; congruence | discriminate].
Qed.

Lemma good_prefix_drop (n : nat) (s : string) : good_prefix s -> good_prefix (Str.drop n s).
Proof.
  intros (H1 & H2 & H3). repeat split;
    [now apply has_char_drop | now apply has_char_drop | now apply slash_terminated_drop].
Qed.

Lemma good_prefix_empty : good_prefix "".
Proof. repeat split. Qed.

Lemma forall_chars_has_char (p : ascii -> bool) (c : ascii) (s : string) :
  Str.forall_chars p s = true -> p c = false -> Str.has_char c s = false.
Proof.
  intros H Hc. induction s as [|a s IH]; [reflexivity|]. cbn in H |- *.
  apply andb_prop in H as [Ha H]. rewrite (IH H), orb_false_r.
  destruct (Ascii.eqb a c) eqn:E; [|reflexivity].
  apply Ascii.eqb_eq in E. congruence.
Qed.

Lemma find_none_inv (c : ascii) (s : string) :
  Str.find c s = None -> Str.has_char c s = false.
Proof.
  destruct (Str.has_char c s) eqn:E; [|reflexivity].
  intros H. exfalso. revert H. clear -E.
  induction s as [|a s IH]; [discriminate|]. cbn in E |- *.
  destruct (Ascii.eqb a c); [discriminate|]. cbn in E.
  destruct (Str.find c s); [discriminate|]. intros _. now apply IH.
Qed.

Lemma slash_terminated_split (s : string) :
  slash_terminated s = true -> s <> "" -> exists p, s = p +:+ "/".
Proof.
  induction s as [|a s IH]; [easy|]. intros H _. destruct s as [|b s].
  - cbn in H. apply Ascii.eqb_eq in H as ->. now exists "".
  - destruct IH as [p Hp]; [exact H | easy|]. exists (String a p).
    rewrite append_cons. now rewrite <- Hp.
Qed.

Lemma rfind_last (c : ascii) (p t : string) :
  Str.has_char c t = false ->
  Str.rfind c (p +:+ String c t) = Some (String.length p).
Proof.
  intros Ht. induction p as [|a p IH].
  - change ("" +:+ String c t) with (String c t). cbn [Str.rfind].
    assert (Str.rfind c t = None) as ->.
    { clear -Ht. induction t as [|b t IH]; [reflexivity|]. cbn in Ht |- *.
      apply orb_false_iff in Ht as [-> Ht]. now rewrite IH. }
    now rewrite Ascii.eqb_refl.
  - rewrite append_cons. cbn [Str.rfind String.length]. now rewrite IH.
Qed.

Lemma split_off_scheme_cases (url scheme : string) :
  UrlParse.split_off_scheme url scheme = (scheme, url)
  \/ exists i, Str.find ":" url = Some (S i)
               /\ Str.forall_chars UrlParse.is_scheme_char (Str.take (S i) url) = true
               /\ UrlParse.split_off_scheme url scheme
                  = (Str.map_chars Chr.lower (Str.take (S i) url),
                     Str.drop (S (S i)) url).
Proof.
  unfold UrlParse.split_off_scheme.
  destruct (Str.find ":" url) as [[|i]|]; auto.
  destruct url as [|c0 url]; auto.
  destruct (Chr.is_ascii_alpha c0); cbn [andb]; auto.
  destruct (Str.forall_chars _ _) eqn:E; auto.
  right. exists i. auto.
Qed.

Section LastSegment.

Variable check_bracketed_host : string -> bool.
Variable nfkc : string -> string.

(** [q] is the last segment: non-empty and made of plain characters. *)
Variable q : string.
Hypothesis q_plain : Str.forall_chars is_plain q = true.
Hypothesis q_nonempty : q <> "".

Lemma q_lacks (c : ascii) : is_plain c = false -> Str.has_char c q = false.
Proof. apply forall_chars_has_char, q_plain. Qed.

Lemma q_head : exists m q', q = String m q' /\ is_plain m = true.
Proof.
  pose proof q_plain as H. pose proof q_nonempty as Hn.
  destruct q as [|m q']; [now destruct Hn|].
  cbn [Str.forall_chars] in H. apply andb_prop in H as [H _]. eauto.
Qed.

Lemma lstrip_before_q (pre : string) :
  Str.lstrip UrlParse.is_c0_control_or_space (pre +:+ q)
  = Str.lstrip UrlParse.is_c0_control_or_space pre +:+ q.
Proof.
  induction pre as [|a pre IH].
  - destruct q_head as (m & q' & -> & Hm). cbn [Str.lstrip].
    change ("" +:+ String m q') with (String m q'). cbn [Str.lstrip].
    unfold is_plain in Hm. apply andb_prop in Hm as [_ Hm].
    apply negb_true_iff in Hm. now rewrite Hm.
  - rewrite append_cons. cbn [Str.lstrip].
    destruct (UrlParse.is_c0_control_or_space a); [exact IH | now rewrite append_cons].
Qed.

Lemma remove_unsafe_before_q (pre : string) :
  UrlParse.remove_unsafe (pre +:+ q) = UrlParse.remove_unsafe pre +:+ q.
Proof.
  unfold UrlParse.remove_unsafe.
  rewrite !remove_char_app; [reflexivity| | |]; now apply q_lacks.
Qed.

Lemma good_prefix_lstrip (pre : string) :
  good_prefix pre -> good_prefix (Str.lstrip UrlParse.is_c0_control_or_space pre).
Proof.
  intros (H1 & H2 & H3).
  repeat split; [now apply has_char_lstrip | now apply has_char_lstrip
                | now apply slash_terminated_lstrip].
Qed.

Lemma good_prefix_remove_unsafe (pre : string) : good_prefix pre -> good_prefix (UrlParse.remove_unsafe pre).
Proof.
  intros (H1 & H2 & H3). unfold UrlParse.remove_unsafe.
  repeat split; [now repeat apply has_char_remove | now repeat apply has_char_remove|].
  repeat (apply slash_terminated_remove; [reflexivity|]). exact H3.
Qed.

(** The scheme block leaves [q] at the end of the rest. *)
Lemma split_off_scheme_before_q (pre scheme scheme' url' : string) :
  good_prefix pre ->
  UrlParse.split_off_scheme (pre +:+ q) scheme = (scheme', url') ->
  exists pre', url' = pre' +:+ q /\ good_prefix pre'.
Proof.
  intros Hg H.
  destruct (split_off_scheme_cases (pre +:+ q) scheme) as [E|(i & F & _ & E)].
  - rewrite E in H. injection H as _ <-. now exists pre.
  - rewrite E in H. apply (f_equal snd) in H. cbn [snd] in H. subst url'.
    rewrite find_app in F by (now apply q_lacks).
    exists (Str.drop (S (S i)) pre). split; [|now apply good_prefix_drop].
    apply drop_app. destruct (find_some _ _ _ F) as [Hlt _]. lia.
Qed.

(** The netloc block: either the netloc swallows [q], or [q] stays at the
    end of the rest. *)
Lemma split_off_netloc_before_q (pre netloc rest : string) :
  good_prefix pre ->
  UrlParse.split_off_netloc check_bracketed_host (pre +:+ q)
  = Returned (netloc, rest) ->
  (exists a, netloc = a +:+ q) \/ (exists pre', rest = pre' +:+ q /\ good_prefix pre').
Proof.
  intros Hg. unfold UrlParse.split_off_netloc.
  destruct (String.eqb (Str.take 2 (pre +:+ q)) "//") eqn:E;
    [|intros [= _ <-]; right; now exists pre].
  apply String.eqb_eq in E.
  assert (Hpre : exists body, pre = "//" +:+ body).
  { destruct q_head as (m & q' & Hq & Hm).
    assert (Hm' : m <> "/"%char) by (intros ->; discriminate).
    destruct pre as [|a [|b body]].
    - rewrite Hq in E. change ("" +:+ String m q') with (String m q') in E.
      cbn in E. destruct q'; injection E; congruence.
    - rewrite Hq in E. cbn in E. injection E. congruence.
    - cbn in E. injection E as -> ->. now exists body. }
  destruct Hpre as [body ->].
  assert (Hb : good_prefix body) by (apply (good_prefix_drop 2) in Hg; exact Hg).
  rewrite append_assoc. clear E.
  destruct Hb as (Hb1 & Hb2 & Hb3).
  unfold UrlParse.splitnetloc. cbn [fold_left]. unfold Str.find_from.
  change (Str.drop 2 ("//" +:+ body +:+ q)) with (body +:+ q).
  rewrite (find_none "?" (body +:+ q)), (find_none "#" (body +:+ q))
    by (rewrite has_char_app, ?Hb1, ?Hb2; now apply q_lacks).
  rewrite find_app by (now apply q_lacks).
  set (url := "//" +:+ body +:+ q).
  assert (Hlen : String.length url = 2 + (String.length body + String.length q)).
  { unfold url. change ("//" +:+ body +:+ q) with (String "/" (String "/" (body +:+ q))).
    cbn [String.length]. now rewrite length_app. }
  destruct (Str.find "/" body) as [i|] eqn:F.
  - destruct (find_some _ _ _ F) as (Hi & _ & _).
    replace (Nat.min (String.length url) (2 + i)) with (2 + i) by lia.
    replace (2 + i - 2) with i by lia.
    change (Str.drop (2 + i) url) with (Str.drop i (body +:+ q)).
    change (Str.drop 2 url) with (body +:+ q).
    rewrite drop_app by lia.
    intros H. right. exists (Str.drop i body). split.
    + destruct (_ || _) in H; [discriminate|].
      destruct (_ && _) in H; [|now injection H].
      destruct (UrlParse.check_bracketed_netloc _ _) in H; [|discriminate].
      now injection H.
    + now apply good_prefix_drop.
  - change (Str.drop 2 url) with (body +:+ q).
    replace (String.length url - 2) with (String.length (body +:+ q))
      by (rewrite length_app; lia).
    rewrite take_length.
    intros H. left. exists body.
    destruct (_ || _) in H; [discriminate|].
    destruct (_ && _) in H; [|now injection H].
    destruct (UrlParse.check_bracketed_netloc _ _) in H; [|discriminate].
    now injection H.
Qed.

Lemma split_off_before_q (c : ascii) (pre : string) :
  Str.has_char c pre = false -> is_plain c = false ->
  UrlParse.split_off c (pre +:+ q) = (pre +:+ q, "").
Proof.
  intros Hp Hc. unfold UrlParse.split_off.
  now rewrite has_char_app, Hp, (q_lacks c Hc).
Qed.

Lemma urlsplit_before_q (pre scheme : string) (sr : UrlParse.SplitResult) :
  good_prefix pre ->
  UrlParse.urlsplit check_bracketed_host nfkc (pre +:+ q) scheme = Returned sr ->
  (exists a, UrlParse.split_netloc sr = a +:+ q)
  \/ (exists pre', UrlParse.split_path sr = pre' +:+ q /\ good_prefix pre').
Proof.
  intros Hg. unfold UrlParse.urlsplit.
  rewrite lstrip_before_q, remove_unsafe_before_q.
  apply good_prefix_lstrip, good_prefix_remove_unsafe in Hg.
  destruct (UrlParse.split_off_scheme _ _) as [scheme1 url1] eqn:E1.
  destruct (split_off_scheme_before_q _ _ _ _ Hg E1) as (pre1 & -> & Hg1).
  destruct (UrlParse.split_off_netloc _ _) as [[netloc rest]|] eqn:E2;
    [|discriminate].
  rewrite result_bind_returned.
  destruct (split_off_netloc_before_q _ _ _ Hg1 E2) as [[a ->]|(pre2 & -> & Hg2)].
  - destruct (UrlParse.split_off "#" rest) as [url3 fragment].
    destruct (UrlParse.split_off "?" url3) as [url4 query].
    destruct (UrlParse.checknetloc _ _); [|discriminate].
    rewrite result_bind_returned. intros [= <-]. left. now exists a.
  - destruct Hg2 as (H1 & H2 & H3).
    rewrite (split_off_before_q "#" pre2 H1 eq_refl).
    rewrite (split_off_before_q "?" pre2 H2 eq_refl).
    destruct (UrlParse.checknetloc _ _); [|discriminate].
    rewrite result_bind_returned. intros [= <-]. right. exists pre2.
    split; [reflexivity | now repeat split].
Qed.

Lemma splitparams_before_q (pre : string) :
  good_prefix pre -> UrlParse.splitparams (pre +:+ q) = (pre +:+ q, "").
Proof.
  intros (H1 & H2 & H3). unfold UrlParse.splitparams.
  assert (Hsemi : Str.find ";" (String "/" q) = None).
  { apply find_none. cbn [Str.has_char]. now rewrite (q_lacks ";" eq_refl). }
  destruct (string_dec pre "") as [->|Hne].
  - change ("" +:+ q) with q. rewrite (q_lacks "/" eq_refl).
    now rewrite (find_none ";" q (q_lacks ";" eq_refl)).
  - destruct (slash_terminated_split pre H3 Hne) as [p ->].
    rewrite has_char_app, has_char_app. cbn [Str.has_char]. rewrite orb_true_r. cbn [orb].
    rewrite append_assoc.
    change ("/" +:+ q) with (String "/" q).
    rewrite (rfind_last "/" p q (q_lacks "/" eq_refl)).
    change (default 0 (Some (String.length p))) with (String.length p).
    unfold Str.find_from.
    assert (Hd : Str.drop (String.length p) (p +:+ String "/" q) = String "/" q)
      by (rewrite drop_app by lia; now rewrite drop_length).
    now rewrite Hd, Hsemi.
Qed.

(** Parsing a link that ends with the plain segment [q] after a good_prefix
    prefix leaves [q] in the netloc or in the path. *)
Lemma urlparse_before_q (pre scheme : string) (parsed : UrlParse.ParseResult) :
  good_prefix pre ->
  UrlParse.urlparse check_bracketed_host nfkc (pre +:+ q) scheme = Returned parsed ->
  (exists a, UrlParse.netloc parsed = a +:+ q)
  \/ (exists a, UrlParse.path parsed = a +:+ q).
Proof.
  intros Hg. unfold UrlParse.urlparse.
  destruct (UrlParse.urlsplit _ _ _ _) as [sr|] eqn:E; [|discriminate].
  rewrite result_bind_returned.
  destruct (urlsplit_before_q _ _ _ Hg E) as [[a Ha]|(pre' & Hp & Hg')].
  - destruct (_ && _); [destruct (UrlParse.splitparams _)|];
      intros [= <-]; left; exists a; exact Ha.
  - rewrite Hp, (splitparams_before_q pre' Hg').
    destruct (_ && _); intros [= <-]; right; now exists pre'.
Qed.

End LastSegment.

Lemma no_marks_take (n : nat) (s : string) : no_marks s -> no_marks (Str.take n s).
Proof. intros [H1 H2]. split; now apply has_char_take. Qed.

Lemma no_marks_drop (n : nat) (s : string) : no_marks s -> no_marks (Str.drop n s).
Proof. intros [H1 H2]. split; now apply has_char_drop. Qed.

Lemma no_marks_app (s t : string) : no_marks s -> no_marks t -> no_marks (s +:+ t).
Proof. intros [H1 H2] [H3 H4]. split; rewrite has_char_app; now rewrite ?H1, ?H2, ?H3, ?H4. Qed.

(** *** What [urlsplit] and [urlparse] return *)

Lemma scheme_char_lower_clean (a : ascii) :
  UrlParse.is_scheme_char a = true ->
  Ascii.eqb (Chr.lower a) "#" = false /\ Ascii.eqb (Chr.lower a) "?" = false.
Proof.
  destruct a as [[] [] [] [] [] [] [] []]; intros H; try discriminate H;
    split; reflexivity.
Qed.

Lemma scheme_lower_clean (s : string) :
  Str.forall_chars UrlParse.is_scheme_char s = true ->
  no_marks (Str.map_chars Chr.lower s).
Proof.
  induction s as [|a s IH]; [easy|]. cbn [Str.forall_chars Str.map_chars].
  intros H. apply andb_prop in H as [Ha H]. destruct (IH H) as [H1 H2].
  destruct (scheme_char_lower_clean a Ha) as [E1 E2].
  split; cbn [Str.has_char]; now rewrite ?E1, ?E2, ?H1, ?H2.
Qed.

Lemma split_off_scheme_clean (url scheme scheme' url' : string) :
  no_marks scheme ->
  UrlParse.split_off_scheme url scheme = (scheme', url') -> no_marks scheme'.
Proof.
  intros Hc H.
  destruct (split_off_scheme_cases url scheme) as [E|(i & _ & Hs & E)];
    rewrite E in H; apply (f_equal fst) in H; cbn [fst] in H; subst scheme';
    [exact Hc | now apply scheme_lower_clean].
Qed.

Lemma splitnetloc_clean (url : string) :
  no_marks (fst (UrlParse.splitnetloc url 2)).
Proof.
  unfold UrlParse.splitnetloc. cbn [fold_left fst]. unfold Str.find_from.
  set (body := Str.drop 2 url). set (len := String.length url).
  set (d1 := match match Str.find "/" body with Some i => Some (2 + i) | None => None end
             with Some w => Nat.min len w | None => len end).
  split.
  - destruct (Str.find "#" body) as [i|] eqn:F.
    + apply (has_char_take_before "#" body i); [exact F|].
      destruct (Str.find "?" body); lia.
    + now apply has_char_take, find_none_inv.
  - destruct (Str.find "?" body) as [i|] eqn:F.
    + apply (has_char_take_before "?" body i); [exact F|].
      destruct (Str.find "#" body); lia.
    + now apply has_char_take, find_none_inv.
Qed.

Lemma split_off_netloc_clean (cbh : string -> bool) (url netloc rest : string) :
  UrlParse.split_off_netloc cbh url = Returned (netloc, rest) -> no_marks netloc.
Proof.
  unfold UrlParse.split_off_netloc.
  destruct (String.eqb _ _); [|now intros [= <- _]].
  pose proof (splitnetloc_clean url) as Hc.
  destruct (UrlParse.splitnetloc url 2) as [n r]. cbn [fst] in Hc.
  destruct (_ || _); [discriminate|].
  destruct (_ && _); [|now intros [= <- _]].
  destruct (UrlParse.check_bracketed_netloc _ _); [|discriminate].
  now intros [= <- _].
Qed.

Lemma split_off_fst (c : ascii) (s : string) :
  Str.has_char c (fst (UrlParse.split_off c s)) = false
  /\ exists n, fst (UrlParse.split_off c s) = Str.take n s.
Proof.
  unfold UrlParse.split_off, Str.split_once.
  destruct (Str.has_char c s) eqn:E.
  - destruct (Str.find c s) as [i|] eqn:F.
    + destruct (find_some c s i F) as (_ & H & _). cbn [fst]. eauto.
    + apply find_none_inv in F. congruence.
  - cbn [fst]. split; [exact E|]. exists (String.length s). now rewrite take_length.
Qed.

Lemma urlsplit_clean (cbh : string -> bool) (nfkc : string -> string)
    (url : string) (sr : UrlParse.SplitResult) :
  UrlParse.urlsplit cbh nfkc url "" = Returned sr ->
  no_marks (UrlParse.split_scheme sr) /\ no_marks (UrlParse.split_netloc sr)
  /\ no_marks (UrlParse.split_path sr).
Proof.
  unfold UrlParse.urlsplit.
  destruct (UrlParse.split_off_scheme _ _) as [scheme1 url1] eqn:E1.
  assert (Hs : no_marks scheme1).
  { eapply split_off_scheme_clean; [|exact E1]. split; reflexivity. }
  destruct (UrlParse.split_off_netloc _ _) as [[netloc rest]|] eqn:E2; [|discriminate].
  rewrite result_bind_returned.
  pose proof (split_off_netloc_clean _ _ _ _ E2) as Hn.
  destruct (split_off_fst "#" rest) as [Hf [n1 Hf']].
  destruct (UrlParse.split_off "#" rest) as [url3 fragment]. cbn [fst] in Hf, Hf'.
  destruct (split_off_fst "?" url3) as [Hq [n2 Hq']].
  destruct (UrlParse.split_off "?" url3) as [url4 query]. cbn [fst] in Hq, Hq'.
  destruct (UrlParse.checknetloc _ _); [|discriminate].
  rewrite result_bind_returned. intros [= <-]. cbn.
  repeat split; try apply Hs; try apply Hn; [|exact Hq].
  rewrite Hq'. now apply has_char_take.
Qed.

Lemma splitparams_fst (url : string) :
  exists n, fst (UrlParse.splitparams url) = Str.take n url.
Proof.
  unfold UrlParse.splitparams.
  destruct (Str.has_char "/" url).
  - destruct (Str.find_from _ _ _) as [i|]; cbn [fst]; [eauto|].
    exists (String.length url). now rewrite take_length.
  - destruct (Str.find _ _) as [i|]; cbn [fst]; [eauto|].
    exists (String.length url). now rewrite take_length.
Qed.

Lemma urlparse_clean (cbh : string -> bool) (nfkc : string -> string)
    (url : string) (b : UrlParse.ParseResult) :
  UrlParse.urlparse cbh nfkc url "" = Returned b ->
  no_marks (UrlParse.scheme b) /\ no_marks (UrlParse.netloc b) /\ no_marks (UrlParse.path b).
Proof.
  unfold UrlParse.urlparse.
  destruct (UrlParse.urlsplit _ _ _ _) as [sr|] eqn:E; [|discriminate].
  rewrite result_bind_returned.
  destruct (urlsplit_clean _ _ _ _ E) as (H1 & H2 & H3).
  destruct (splitparams_fst (UrlParse.split_path sr)) as [n Hn].
  destruct (_ && _).
  - destruct (UrlParse.splitparams _) as [url' params']. cbn [fst] in Hn.
    intros [= <-]. cbn. subst url'. repeat split; try apply H1; try apply H2;
      now apply no_marks_take.
  - intros [= <-]. cbn. repeat split; try apply H1; try apply H2; apply H3.
Qed.

Lemma uses_relative_netloc (s : string) :
  Str.in_list s UrlParse.uses_relative = true ->
  Str.in_list s UrlParse.uses_netloc = true.
Proof.
  unfold Str.in_list. intros H. apply existsb_exists in H as (x & Hin & E).
  apply String.eqb_eq in E. subst x.
  repeat (destruct Hin as [<-|Hin]; [reflexivity|]). destruct Hin.
Qed.

(** *** Segments *)

Lemma split_char_go_clean (c d : ascii) (s cur : string) :
  Str.has_char d cur = false -> Str.has_char d s = false ->
  Forall (fun seg => Str.has_char d seg = false) (Str.split_char_go c cur s).
Proof.
  revert cur. induction s as [|a s IH]; intros cur Hcur Hs; cbn [Str.split_char_go].
  - now constructor.
  - cbn [Str.has_char] in Hs. apply orb_false_iff in Hs as [Ha Hs].
    destruct (Ascii.eqb a c).
    + constructor; [exact Hcur|]. now apply IH.
    + apply IH; [|exact Hs]. rewrite has_char_app, Hcur. cbn. now rewrite Ha.
Qed.

Lemma split_char_clean (s : string) :
  no_marks s -> Forall no_marks (Str.split_char "/" s).
Proof.
  intros [H1 H2]. unfold Str.split_char.
  pose proof (split_char_go_clean "/" "#" s "" eq_refl H1) as F1.
  pose proof (split_char_go_clean "/" "?" s "" eq_refl H2) as F2.
  revert F1 F2. generalize (Str.split_char_go "/" "" s). intros l F1 F2.
  induction l as [|x l IH]; [constructor|].
  inversion F1; inversion F2; subst. constructor; [now split | now apply IH].
Qed.

Lemma split_char_go_single (c : ascii) (s cur : string) :
  Str.has_char c s = false -> Str.split_char_go c cur s = [cur +:+ s].
Proof.
  revert cur. induction s as [|a s IH]; intros cur H; cbn [Str.split_char_go].
  - now rewrite append_empty_r.
  - cbn [Str.has_char] in H. apply orb_false_iff in H as [-> H].
    rewrite IH by exact H. now rewrite append_assoc.
Qed.

Lemma split_char_single (c : ascii) (s : string) :
  Str.has_char c s = false -> Str.split_char c s = [s].
Proof. intros H. unfold Str.split_char. now rewrite split_char_go_single. Qed.

Lemma Forall_removelast {A : Type} (P : A -> Prop) (l : list A) :
  Forall P l -> Forall P (removelast l).
Proof.
  induction 1 as [|x l Hx Hl IH]; [constructor|]. cbn.
  destruct l; [constructor|]. now constructor.
Qed.

Lemma resolve_segments_clean (segments acc : list string) :
  Forall no_marks segments -> Forall no_marks acc ->
  Forall no_marks (UrlParse.resolve_segments segments acc).
Proof.
  revert acc. induction segments as [|seg rest IH]; intros acc Hs Ha; [exact Ha|].
  inversion Hs; subst. cbn [UrlParse.resolve_segments].
  destruct (String.eqb seg ".."); [apply IH; [assumption | now apply Forall_removelast]|].
  destruct (String.eqb seg "."); [now apply IH|].
  apply IH; [assumption|]. apply Forall_app. split; [assumption | now constructor].
Qed.

Lemma resolve_segments_app (l1 l2 acc : list string) :
  UrlParse.resolve_segments (l1 ++ l2) acc
  = UrlParse.resolve_segments l2 (UrlParse.resolve_segments l1 acc).
Proof.
  revert acc. induction l1 as [|seg l1 IH]; intros acc; [reflexivity|].
  cbn [app UrlParse.resolve_segments].
  destruct (String.eqb seg ".."); [apply IH|].
  destruct (String.eqb seg "."); apply IH.
Qed.

Lemma join_clean (l : list string) : Forall no_marks l -> no_marks (Str.join "/" l).
Proof.
  induction 1 as [|x l Hx Hl IH]; [easy|]. cbn [Str.join].
  destruct l as [|y l]; [exact Hx|].
  apply no_marks_app; [exact Hx|]. apply no_marks_app; [easy | exact IH].
Qed.

Lemma join_snoc (l : list string) (x : string) :
  Str.join "/" (l ++ [x])
  = match l with [] => "" | _ => Str.join "/" l +:+ "/" end +:+ x.
Proof.
  induction l as [|y l IH]; [reflexivity|].
  cbn [app]. destruct l as [|z l].
  - cbn. now rewrite !append_assoc.
  - change (Str.join "/" (y :: (z :: l) ++ [x]))
      with (y +:+ "/" +:+ Str.join "/" ((z :: l) ++ [x])).
    rewrite IH. change (Str.join "/" (y :: z :: l))
      with (y +:+ "/" +:+ Str.join "/" (z :: l)).
    now rewrite !append_assoc.
Qed.

Lemma filter_middle_snoc (bp : list string) (x : string) :
  Forall no_marks bp ->
  exists front, UrlParse.filter_middle (bp ++ [x]) = front ++ [x]
                /\ Forall no_marks front.
Proof.
  intros H. destruct bp as [|y rest].
  - exists []. split; [reflexivity | constructor].
  - inversion H; subst.
    exists (y :: filter (fun s => negb (Str.is_empty s)) rest). split.
    + cbn [app UrlParse.filter_middle].
      destruct (rest ++ [x]) as [|z tl] eqn:E; [now destruct rest|].
      rewrite <- E, removelast_last, last_last. reflexivity.
    + constructor; [assumption|].
      clear -H3. induction H3 as [|z l Hz Hl IH]; [constructor|].
      cbn. destruct (negb _); [now constructor | exact IH].
Qed.

Section Joined.

Variable check_bracketed_host : string -> bool.
Variable nfkc : string -> string.
Variable q : string.
Hypothesis q_plain : Str.forall_chars is_plain q = true.
Hypothesis q_nonempty : q <> "".
Hypothesis q_not_dot : String.eqb q "." = false.
Hypothesis q_not_dots : String.eqb q ".." = false.

Local Abbreviation lacks := (q_lacks q q_plain).

Lemma q_not_empty : Str.is_empty q = false.
Proof. destruct q; [now destruct q_nonempty | reflexivity]. Qed.

Lemma q_take_1 : String.eqb (Str.take 1 q) "/" = false.
Proof.
  destruct (q_head q q_plain q_nonempty) as (m & q' & E & Hm).
  rewrite E. cbn. destruct (Ascii.eqb m "/") eqn:Em; [|reflexivity].
  apply Ascii.eqb_eq in Em. subst m. discriminate.
Qed.

Lemma q_take_2 (s : string) : String.eqb (Str.take 2 (q +:+ s)) "//" = false.
Proof.
  destruct (q_head q q_plain q_nonempty) as (m & q' & E & Hm).
  rewrite E, append_cons. cbn [Str.take].
  apply String.eqb_neq. intros [= -> _]. discriminate.
Qed.

(** The relative path [q] resolves to a path that ends with [q] after a
    good_prefix prefix. *)
Lemma resolve_path_ends_with_q (bpath : string) :
  no_marks bpath ->
  exists jpre, UrlParse.resolve_path bpath q = jpre +:+ q /\ good_prefix jpre.
Proof.
  intros Hc. unfold UrlParse.resolve_path. rewrite q_take_1.
  rewrite (split_char_single "/" q (lacks "/" eq_refl)).
  set (bp := if negb _ then removelast _ else _).
  assert (Hbp : Forall no_marks bp).
  { unfold bp. destruct (negb _); [apply Forall_removelast|]; now apply split_char_clean. }
  destruct (filter_middle_snoc bp q Hbp) as (front & -> & Hfront).
  rewrite last_last. unfold Str.in_list. cbn [existsb].
  rewrite q_not_dot, q_not_dots. cbn [orb].
  rewrite resolve_segments_app. cbn [UrlParse.resolve_segments].
  rewrite q_not_dot, q_not_dots.
  pose proof (resolve_segments_clean front [] Hfront ltac:(constructor)) as Hres.
  set (res := UrlParse.resolve_segments front []) in *.
  rewrite join_snoc.
  set (jpre := match res with [] => "" | _ => Str.join "/" res +:+ "/" end).
  assert (Hj : good_prefix jpre).
  { unfold jpre. destruct res as [|r0 res']; [apply good_prefix_empty|].
    destruct (join_clean _ Hres) as [H1 H2].
    repeat split; rewrite ?has_char_app, ?H1, ?H2; try reflexivity.
    apply slash_terminated_snoc. }
  exists jpre. split; [|exact Hj].
  destruct (jpre +:+ q) eqn:E; [|reflexivity].
  exfalso. apply q_nonempty. destruct jpre; [exact E | discriminate].
Qed.

(** Putting the joined link together keeps [q] at the end. *)
Lemma urlunparse_ends_with_q (s netloc' jpre : string) :
  no_marks s -> no_marks netloc' -> good_prefix jpre ->
  Str.in_list s UrlParse.uses_netloc = true ->
  exists pre,
    UrlParse.urlunparse (UrlParse.mkParse s netloc' (jpre +:+ q) "" "" "")
    = pre +:+ q /\ good_prefix pre.
Proof.
  intros [Hs1 Hs2] [Hn1 Hn2] (Hj1 & Hj2 & Hj3) Hin.
  unfold UrlParse.urlunparse, UrlParse.urlunsplit.
  cbn [UrlParse.params UrlParse.path UrlParse.scheme UrlParse.netloc
       UrlParse.query UrlParse.fragment Str.is_empty negb].
  rewrite Hin. cbn [andb].
  (* the path with its leading slash, inside the netloc branch *)
  assert (Hinner : exists ipre,
             (if negb (Str.is_empty (jpre +:+ q))
                 && negb (String.eqb (Str.take 1 (jpre +:+ q)) "/")
              then "/" +:+ jpre +:+ q else jpre +:+ q) = ipre +:+ q
             /\ good_prefix ipre /\ ipre <> "").
  { destruct jpre as [|a jpre'].
    - change ("" +:+ q) with q. rewrite q_not_empty, q_take_1. cbn [negb andb].
      exists "/". repeat split. discriminate.
    - destruct (_ && _).
      + exists ("/" +:+ String a jpre'). split; [now rewrite append_assoc|].
        split; [|discriminate]. repeat split.
        * now rewrite has_char_app, Hj1.
        * now rewrite has_char_app, Hj2.
        * rewrite slash_terminated_app; [exact Hj3 | discriminate].
      + exists (String a jpre'). repeat split; try assumption. discriminate. }
  destruct Hinner as (ipre & Ei & (Hi1 & Hi2 & Hi3) & Hine).
  assert (Hnet : good_prefix (("//" +:+ netloc') +:+ ipre)).
  { repeat split.
    - now rewrite has_char_app, Hi1, has_char_app, Hn1.
    - now rewrite has_char_app, Hi2, has_char_app, Hn2.
    - now rewrite slash_terminated_app. }
  destruct (Str.is_empty s) eqn:Es.
  - (* no scheme *)
    cbn [negb andb orb]. rewrite orb_false_r.
    destruct (negb (Str.is_empty netloc')).
    + rewrite Ei. exists (("//" +:+ netloc') +:+ ipre).
      split; [now rewrite !append_assoc | exact Hnet].
    + exists jpre. now repeat split.
  - cbn [negb andb].
    destruct (negb (Str.is_empty netloc') || negb (String.eqb (Str.take 2 (jpre +:+ q)) "//"))
      eqn:Ec.
    + rewrite Ei. exists ((s +:+ ":") +:+ (("//" +:+ netloc') +:+ ipre)). split.
      * now rewrite !append_assoc.
      * destruct Hnet as (G1 & G2 & G3). repeat split.
        -- now rewrite has_char_app, G1, has_char_app, Hs1.
        -- now rewrite has_char_app, G2, has_char_app, Hs2.
        -- rewrite slash_terminated_app; [exact G3|]. rewrite append_assoc. discriminate.
    + apply orb_false_iff in Ec as [_ Ec]. apply negb_false_iff in Ec.
      destruct jpre as [|a jpre'].
      * change ("" +:+ q) with q in Ec. rewrite <- (append_empty_r q) in Ec.
        now rewrite q_take_2 in Ec.
      * exists ((s +:+ ":") +:+ String a jpre'). split; [now rewrite !append_assoc|].
        repeat split.
        -- now rewrite has_char_app, Hj1, has_char_app, Hs1.
        -- now rewrite has_char_app, Hj2, has_char_app, Hs2.
        -- rewrite slash_terminated_app; [exact Hj3 | discriminate].
Qed.

(** Parsing [q] alone, with a default scheme. *)
Lemma urlparse_q (scheme : string) :
  UrlParse.urlparse check_bracketed_host nfkc q scheme
  = Returned (UrlParse.mkParse
                (UrlParse.remove_unsafe
                   (Str.strip UrlParse.is_c0_control_or_space scheme))
                "" q "" "" "").
Proof.
  assert (Hl : Str.lstrip UrlParse.is_c0_control_or_space q = q)
    by exact (lstrip_before_q q q_plain q_nonempty "").
  assert (Hr : UrlParse.remove_unsafe q = q)
    by exact (remove_unsafe_before_q q q_plain "").
  unfold UrlParse.urlparse, UrlParse.urlsplit. rewrite Hl, Hr.
  unfold UrlParse.split_off_scheme.
  rewrite (find_none ":" q (lacks ":" eq_refl)).
  unfold UrlParse.split_off_netloc.
  rewrite <- (append_empty_r q) at 1. rewrite q_take_2.
  rewrite result_bind_returned.
  unfold UrlParse.split_off.
  rewrite (lacks "#" eq_refl), (lacks "?" eq_refl).
  change (UrlParse.checknetloc nfkc "") with (Returned tt : result unit).
  rewrite !result_bind_returned.
  cbn [UrlParse.split_scheme UrlParse.split_path UrlParse.split_netloc
       UrlParse.split_query UrlParse.split_fragment].
  rewrite (lacks ";" eq_refl), andb_false_r. reflexivity.
Qed.

(** Joining the plain segment [q] to any base gives a link that ends with
    [q] after a good_prefix prefix. *)
Lemma urljoin_ends_with_q (base href : string) :
  UrlParse.urljoin check_bracketed_host nfkc base q = Returned href ->
  exists pre, href = pre +:+ q /\ good_prefix pre.
Proof.
  unfold UrlParse.urljoin.
  destruct (Str.is_empty base); [intros [= <-]; exists ""; split; [reflexivity | apply good_prefix_empty]|].
  rewrite q_not_empty.
  destruct (UrlParse.urlparse _ _ base "") as [b|] eqn:Eb; [|discriminate].
  rewrite result_bind_returned, urlparse_q, result_bind_returned.
  cbn [UrlParse.scheme UrlParse.netloc UrlParse.path UrlParse.params
       UrlParse.query UrlParse.fragment Str.is_empty negb andb].
  set (s := UrlParse.remove_unsafe _).
  destruct (String.eqb s (UrlParse.scheme b)) eqn:Es; cbn [negb orb];
    [|intros [= <-]; exists ""; split; [reflexivity | apply good_prefix_empty]].
  destruct (Str.in_list s UrlParse.uses_relative) eqn:Er; cbn [negb];
    [|intros [= <-]; exists ""; split; [reflexivity | apply good_prefix_empty]].
  pose proof (uses_relative_netloc s Er) as En. rewrite En.
  cbn [andb]. rewrite q_not_empty. cbn [andb].
  destruct (urlparse_clean _ _ _ _ Eb) as (Hbs & Hbn & Hbp).
  apply String.eqb_eq in Es.
  destruct (resolve_path_ends_with_q (UrlParse.path b) Hbp) as (jpre & -> & Hj).
  intros [= <-].
  apply urlunparse_ends_with_q; try assumption. now rewrite Es.
Qed.

End Joined.

(** ** URL normalisation *)

Section Normalisation.

Import Spider.

Variable validators_url : string -> bool.
Variable check_bracketed_host : string -> bool.
Variable nfkc : string -> string.

Local Abbreviation normalise :=
  (modify_verify_url validators_url check_bracketed_host nfkc).
Local Abbreviation normalise_exit :=
  (modify_verify_url_exit validators_url check_bracketed_host nfkc).

(** The first guard: a link that validates is returned as it is. *)
Lemma modify_verify_url_valid (root url : string) :
  validators_url url = true ->
  normalise_exit root url = Returned (ReturnUrl, url).
Proof. intros H. unfold modify_verify_url_exit. rewrite H. reflexivity. Qed.


(** The exits of [modify_verify_url] and what each returns. *)
Lemma modify_verify_url_exits (root url : string) (e : exit_point) (s : string) :
  normalise_exit root url = Returned (e, s) ->
  match e with
  | ReturnUrl => validators_url url = true /\ s = url
  | ReturnUrlAfterQuote =>
      validators_url url = false
      /\ validators_url (Str.concat_map UrlParse.quote_byte url) = true
      /\ s = url
  | ReturnValidHref => validators_url url = false /\ validators_url s = true
  | ReturnEmpty => validators_url url = false /\ s = EmptyString
  end.
Proof.
  unfold modify_verify_url_exit.
  destruct (validators_url url) eqn:Hu; [intros [= <- <-]; auto|].
  destruct (validators_url (Str.concat_map _ url)) eqn:Hq; cbn;
    [intros [= <- <-]; auto|].
  destruct (UrlParse.urljoin _ _ _ _) as [href|]; cbn; [|discriminate].
  destruct (UrlParse.urlparse _ _ _ _) as [parsed|]; cbn; [|discriminate].
  destruct (validators_url (_ +:+ _)) eqn:Hv; intros [= <- <-]; auto.
Qed.

Lemma modify_verify_url_value (root url s : string) :
  normalise root url = Returned s ->
  exists e, normalise_exit root url = Returned (e, s).
Proof.
  unfold modify_verify_url. destruct (normalise_exit root url) as [[e s']|]; cbn;
    [intros [= <-]; eauto | discriminate].
Qed.

(** The loop of [get_all_sublinks_from_soup] adds no link that contains
    [mailto]. *)
Lemma sublinks_loop_no_mailto (root : string) (tags : list Soup.Tag) :
  forall temp_set links,
    (forall l, l ∈ temp_set -> Str.contains "mailto" l = false) ->
    for_each (sublinks_body validators_url check_bracketed_host nfkc root)
             tags temp_set = Returned links ->
    forall l, l ∈ links -> Str.contains "mailto" l = false.
Proof.
  induction tags as [|t tags IH]; intros temp_set links Hinv Hrun.
  - cbn in Hrun. injection Hrun as <-. exact Hinv.
  - cbn [for_each] in Hrun.
    destruct (sublinks_body _ _ _ root temp_set t) as [temp_set'|] eqn:Hb;
      [|discriminate].
    apply (IH temp_set' links); [|exact Hrun].
    unfold sublinks_body in Hb.
    destruct (Soup.get "href" t) as [href|]; [|injection Hb as <-; exact Hinv].
    destruct (String.eqb href ""); [injection Hb as <-; exact Hinv|].
    destruct (normalise root href) as [clean|]; cbn in Hb; [|discriminate].
    destruct (negb (String.eqb clean "")); cbn in Hb;
      [|injection Hb as <-; exact Hinv].
    destruct (Str.contains "mailto" clean) eqn:Hm; cbn in Hb;
      injection Hb as <-; [exact Hinv|].
    intros l Hl. apply elem_of_union in Hl as [Hl|Hl]; [|now apply Hinv].
    apply elem_of_singleton in Hl. now subst.
Qed.


End Normalisation.

(** *** Substrings *)

Lemma prefix_app (n a b : string) :
  String.prefix n a = true -> String.prefix n (a +:+ b) = true.
Proof.
  revert a. induction n as [|x n IH]; intros a H.
  - now destruct (a +:+ b).
  - destruct a as [|y a]; [discriminate|]. rewrite append_cons.
    cbn [String.prefix] in H |- *. destruct (ascii_dec x y); [|discriminate].
    now apply IH.
Qed.

Lemma contains_app_l (n a b : string) :
  Str.contains n a = true -> Str.contains n (a +:+ b) = true.
Proof.
  induction a as [|x a IH]; intros H.
  - cbn [Str.contains] in H. rewrite orb_false_r in H.
    apply (prefix_app n "" b) in H. change ("" +:+ b) with b in *.
    destruct b; cbn [Str.contains]; now rewrite H.
  - rewrite append_cons. cbn [Str.contains] in H |- *.
    apply orb_true_iff in H as [H|H].
    + apply (prefix_app n (String x a) b) in H. rewrite append_cons in H.
      now rewrite H.
    + rewrite (IH H). apply orb_true_r.
Qed.

Lemma contains_app_r (n a b : string) :
  Str.contains n b = true -> Str.contains n (a +:+ b) = true.
Proof.
  intros H. induction a as [|x a IH]; [exact H|].
  rewrite append_cons. cbn [Str.contains]. rewrite IH. apply orb_true_r.
Qed.

(** *** A link whose quoted form is one plain segment *)

Section PlainLink.

Variable validators_url : string -> bool.
Variable check_bracketed_host : string -> bool.
Variable nfkc : string -> string.

(** When the quoted form of [url] is a single plain path segment, whatever
    [modify_verify_url] returns for it is empty or still shows every piece
    of text that [url] and its quoted form share. *)
Lemma modify_verify_url_plain_segment (root url needle res : string) :
  Str.forall_chars is_plain (Str.concat_map UrlParse.quote_byte url) = true ->
  Str.concat_map UrlParse.quote_byte url <> "" ->
  String.eqb (Str.concat_map UrlParse.quote_byte url) "." = false ->
  String.eqb (Str.concat_map UrlParse.quote_byte url) ".." = false ->
  Str.contains needle url = true ->
  Str.contains needle (Str.concat_map UrlParse.quote_byte url) = true ->
  Spider.modify_verify_url validators_url check_bracketed_host nfkc root url
  = Returned res ->
  res = "" \/ Str.contains needle res = true.
Proof.
  set (q := Str.concat_map UrlParse.quote_byte url).
  intros Hplain Hne Hdot Hdots Hurl Hq Hrun.
  apply modify_verify_url_value in Hrun as [e Hrun].
  pose proof (modify_verify_url_exits _ _ _ _ _ _ _ Hrun) as Hexit.
  destruct e.
  - destruct Hexit as [_ ->]. now right.
  - unfold Spider.modify_verify_url_exit in Hrun. fold q in Hrun.
    destruct Hexit as [Hv _]. rewrite Hv in Hrun.
    destruct (validators_url q); cbn [negb] in Hrun; [discriminate|].
    destruct (UrlParse.urljoin _ _ root q) as [href|] eqn:Ej; [|discriminate].
    rewrite result_bind_returned in Hrun.
    destruct (urljoin_ends_with_q _ _ q Hplain Hne Hdot Hdots root href Ej)
      as (pre & -> & Hg).
    destruct (UrlParse.urlparse _ _ _ "") as [parsed|] eqn:Ep; [|discriminate].
    rewrite result_bind_returned in Hrun.
    destruct (validators_url _); [|discriminate].
    injection Hrun as <-. right.
    apply contains_app_r, contains_app_r.
    destruct (urlparse_before_q _ _ q Hplain Hne pre "" parsed Hg Ep) as [[a ->]|[a ->]].
    + apply contains_app_l. now apply contains_app_r.
    + apply contains_app_r. now apply contains_app_r.
  - destruct Hexit as (_ & _ & ->). now right.
  - destruct Hexit as [_ ->]. now left.
Qed.

End PlainLink.

Lemma mailto_normal_form (v : string -> bool) (cbh : string -> bool)
    (nfkc : string -> string) (root res : string) :
  Spider.modify_verify_url v cbh nfkc root "mailto:a@b.com" = Returned res ->
  res = "" \/ Str.contains "mailto" res = true.
Proof.
  apply modify_verify_url_plain_segment; try reflexivity. discriminate.
Qed.

(** C2, as the code has it.  A link that [validators.url] accepts is
    returned unchanged, whatever the root: its query string and fragment
    are kept. *)
Theorem modify_verify_url_valid_unchanged
    (validators_url : string -> bool) (check_bracketed_host : string -> bool)
    (nfkc : string -> string) (root u : string) :
  validators_url u = true ->
  Spider.modify_verify_url validators_url check_bracketed_host nfkc root u
  = Returned u.
Proof.
  intros H. unfold Spider.modify_verify_url.
  rewrite (modify_verify_url_valid validators_url check_bracketed_host nfkc root u H).
  reflexivity.
Qed.

Lemma modify_verify_url_valid_unchanged_witness :
  Examples.reference_validator Examples.item_url = true
  /\ Spider.modify_verify_url Examples.reference_validator
       Examples.reject_bracketed_host Examples.ascii_nfkc
       Examples.shop_root Examples.item_url
     = Returned Examples.item_url.
Proof.
  split; [reflexivity|].
  apply (modify_verify_url_valid_unchanged Examples.reference_validator
           Examples.reject_bracketed_host Examples.ascii_nfkc
           Examples.shop_root Examples.item_url).
  reflexivity.
Defined.

(** C2 as stated fails on [https://example.com/item?ref=1#top]: the link
    validates, its stripped form is [https://example.com/item], and the
    method returns the link with [?ref=1#top] still attached. *)
Lemma modify_verify_url_keeps_query_of_valid_url :
  Examples.reference_validator "https://example.com/item?ref=1#top" = true
  /\ Spider.strip_url Examples.reject_bracketed_host Examples.ascii_nfkc
       "https://example.com/item?ref=1#top"
     = Returned "https://example.com/item"
  /\ Spider.modify_verify_url Examples.reference_validator
       Examples.reject_bracketed_host Examples.ascii_nfkc
       "https://example.com/shop" "https://example.com/item?ref=1#top"
     = Returned "https://example.com/item?ref=1#top"
  /\ Spider.modify_verify_url Examples.reference_validator
       Examples.reject_bracketed_host Examples.ascii_nfkc
       "https://example.com/shop" "https://example.com/item?ref=1#top"
     <> Spider.strip_url Examples.reject_bracketed_host Examples.ascii_nfkc
          "https://example.com/item?ref=1#top".
Proof. repeat split; try reflexivity. vm_compute. discriminate. Qed.

(** C3 on the code.  For root [https://example.com/shop] and link
    [/item?ref=1#top] the method cannot return
    [https://example.com/item]: whatever [validators.url] answers, the
    result is the link itself, the empty string, or
    [https://example.com/item%3Fref%3D1%23top]; it is the last one as soon
    as the validator rejects the relative link, raw and quoted, and accepts
    that address. *)
Theorem modify_verify_url_item_example
    (validators_url : string -> bool) (check_bracketed_host : string -> bool)
    (nfkc : string -> string) :
  Spider.modify_verify_url validators_url check_bracketed_host nfkc
    "https://example.com/shop" "/item?ref=1#top"
  <> Returned "https://example.com/item"
  /\ (Spider.modify_verify_url validators_url check_bracketed_host nfkc
        "https://example.com/shop" "/item?ref=1#top"
      = Returned "/item?ref=1#top"
      \/ Spider.modify_verify_url validators_url check_bracketed_host nfkc
           "https://example.com/shop" "/item?ref=1#top"
         = Returned ""
      \/ Spider.modify_verify_url validators_url check_bracketed_host nfkc
           "https://example.com/shop" "/item?ref=1#top"
         = Returned "https://example.com/item%3Fref%3D1%23top")
  /\ (validators_url "/item?ref=1#top" = false ->
      validators_url "/item%3Fref%3D1%23top" = false ->
      validators_url "https://example.com/item%3Fref%3D1%23top" = true ->
      Spider.modify_verify_url validators_url check_bracketed_host nfkc
        "https://example.com/shop" "/item?ref=1#top"
      = Returned "https://example.com/item%3Fref%3D1%23top").
Proof.
  assert (Hq : Str.concat_map UrlParse.quote_byte "/item?ref=1#top"
               = "/item%3Fref%3D1%23top") by reflexivity.
  assert (Hj : UrlParse.urljoin check_bracketed_host nfkc
                 "https://example.com/shop" "/item%3Fref%3D1%23top"
               = Returned "https://example.com/item%3Fref%3D1%23top")
    by (vm_compute; reflexivity).
  assert (Hp : UrlParse.urlparse check_bracketed_host nfkc
                 "https://example.com/item%3Fref%3D1%23top" ""
               = Returned (UrlParse.mkParse "https" "example.com"
                             "/item%3Fref%3D1%23top" "" "" ""))
    by (vm_compute; reflexivity).
  unfold Spider.modify_verify_url, Spider.modify_verify_url_exit.
  rewrite Hq, Hj, !result_bind_returned, Hp, !result_bind_returned.
  cbn [UrlParse.scheme UrlParse.netloc UrlParse.path].
  change ("https" +:+ "://" +:+ "example.com" +:+ "/item%3Fref%3D1%23top")
    with "https://example.com/item%3Fref%3D1%23top".
  destruct (validators_url "/item?ref=1#top");
    [cbn; repeat split; [discriminate | auto | discriminate]|].
  destruct (validators_url "/item%3Fref%3D1%23top");
    [cbn; repeat split; [discriminate | auto | discriminate]|].
  destruct (validators_url "https://example.com/item%3Fref%3D1%23top");
    cbn; repeat split; try discriminate; auto.
Qed.

(** With the stand-in validator the method returns the quoted address. *)
Example item_example_with_stand_in_validator :
  Spider.modify_verify_url Examples.reference_validator
    Examples.reject_bracketed_host Examples.ascii_nfkc
    Examples.shop_root Examples.item_href
  = Returned "https://example.com/item%3Fref%3D1%23top".
Proof. reflexivity. Qed.




(** C8. When [get_all_sublinks_from_soup] returns, no link of its set
    contains [mailto]: a link whose normalised form contains [mailto] is
    not in the set, and neither is [mailto:a@b.com] itself.  Whatever the
    root and the validator, the normalised form of [mailto:a@b.com] is
    empty, and then not added, or contains [mailto], and then not in the
    set. *)
Theorem mailto_links_excluded
    (validators_url : string -> bool) (check_bracketed_host : string -> bool)
    (nfkc : string -> string) (root : string) (soup : list Soup.Tag)
    (links : gset string) :
  Spider.get_all_sublinks_from_soup validators_url check_bracketed_host nfkc
    root soup = Returned links ->
  (forall href clean,
     Spider.modify_verify_url validators_url check_bracketed_host nfkc root href
     = Returned clean ->
     Str.contains "mailto" clean = true -> clean ∉ links)
  /\ (forall l, l ∈ links -> Str.contains "mailto" l = false)
  /\ ("mailto:a@b.com" ∉ links)
  /\ (forall clean,
        Spider.modify_verify_url validators_url check_bracketed_host nfkc
          root "mailto:a@b.com" = Returned clean ->
        clean = "" \/ (Str.contains "mailto" clean = true /\ clean ∉ links)).
Proof.
  intros Hrun.
  assert (Hno : forall l, l ∈ links -> Str.contains "mailto" l = false).
  { apply (sublinks_loop_no_mailto validators_url check_bracketed_host nfkc root
             (Soup.find_all "a" soup) ∅ links); [|exact Hrun].
    intros l Hl. apply not_elem_of_empty in Hl. destruct Hl. }
  split; [|split; [exact Hno|split]].
  - intros href clean _ Hm Hin. apply Hno in Hin. congruence.
  - intros Hin. apply Hno in Hin. vm_compute in Hin. discriminate.
  - intros clean Hc.
    destruct (mailto_normal_form _ _ _ _ _ Hc) as [->|Hm]; [now left|].
    right. split; [exact Hm|]. intros Hin. apply Hno in Hin. congruence.
Qed.

(** The theorem on a page with a mail link, an empty link, an anchor
    without [href] and two links to one page: the set holds that page
    only. *)
Lemma mailto_links_excluded_witness :
  Spider.get_all_sublinks_from_soup Examples.reference_validator
    Examples.reject_bracketed_host Examples.ascii_nfkc Examples.shop_root
    Examples.links_page
  = Returned {[ "https://example.com/about" ]}
  /\ ("mailto:a@b.com" ∉ ({[ "https://example.com/about" ]} : gset string))
  /\ ("https://example.com/mailto%3Aa%40b.com"
      ∉ ({[ "https://example.com/about" ]} : gset string)).
Proof.
  assert (Hrun : Spider.get_all_sublinks_from_soup Examples.reference_validator
                   Examples.reject_bracketed_host Examples.ascii_nfkc
                   Examples.shop_root Examples.links_page
                 = Returned {[ "https://example.com/about" ]}) by reflexivity.
  destruct (mailto_links_excluded Examples.reference_validator
              Examples.reject_bracketed_host Examples.ascii_nfkc
              Examples.shop_root Examples.links_page
              {[ "https://example.com/about" ]} Hrun) as (H1 & _ & H3 & _).
  split; [exact Hrun|]. split; [exact H3|].
  apply (H1 "mailto:a@b.com"); reflexivity.
Defined.

(** C10. A string accepted by [validators.url] has a scheme, hence a
    colon; the quoted link has none, so the test on line 192 never fails
    and the method never leaves through line 203: a link that does not
    validate is joined to the root, and the result is the stripped joined
    link or the empty string. *)
Theorem quoted_link_never_validates
    (validators_url : string -> bool) (check_bracketed_host : string -> bool)
    (nfkc : string -> string) :
  (forall s, validators_url s = true -> Str.has_char ":" s = true) ->
  forall root url,
    validators_url (Str.concat_map UrlParse.quote_byte url) = false
    /\ forall e s,
         Spider.modify_verify_url_exit validators_url check_bracketed_host nfkc
           root url = Returned (e, s) ->
         e <> Spider.ReturnUrlAfterQuote
         /\ (validators_url url = false ->
             e = Spider.ReturnValidHref \/ (e = Spider.ReturnEmpty /\ s = "")).
Proof.
  intros Hcolon root url.
  assert (Hq : validators_url (Str.concat_map UrlParse.quote_byte url) = false).
  { destruct (validators_url _) eqn:E; [|reflexivity].
    apply Hcolon in E. rewrite quoted_no_colon in E. discriminate. }
  split; [exact Hq|]. intros e s Hrun.
  apply modify_verify_url_exits in Hrun. destruct e.
  - split; [discriminate|]. intros Hu. destruct Hrun. congruence.
  - split; [discriminate|]. auto.
  - destruct Hrun as (_ & Hq' & _). congruence.
  - split; [discriminate|]. intros _. right. split; [reflexivity|apply Hrun].
Qed.

(** The theorem with the stand-in validator, on the link of the examples. *)
Lemma quoted_link_never_validates_witness :
  Examples.reference_validator
    (Str.concat_map UrlParse.quote_byte Examples.item_href) = false
  /\ Spider.modify_verify_url_exit Examples.reference_validator
       Examples.reject_bracketed_host Examples.ascii_nfkc
       Examples.shop_root Examples.item_href
     = Returned (Spider.ReturnValidHref, "https://example.com/item%3Fref%3D1%23top").
Proof.
  split; [|reflexivity].
  apply (quoted_link_never_validates Examples.reference_validator
           Examples.reject_bracketed_host Examples.ascii_nfkc
           reference_validator_needs_colon Examples.shop_root Examples.item_href).
Defined.

(** * Further properties of the methods *)

(** ** More about URL normalisation *)

Lemma quote_byte_nonempty (b : ascii) : UrlParse.quote_byte b <> "".
Proof. unfold UrlParse.quote_byte. destruct (_ || _); discriminate. Qed.

Lemma quoted_nonempty (url : string) :
  url <> "" -> Str.is_empty (Str.concat_map UrlParse.quote_byte url) = false.
Proof.
  destruct url as [|b url]; [easy|]. intros _. cbn [Str.concat_map].
  pose proof (quote_byte_nonempty b) as H.
  destruct (UrlParse.quote_byte b); [easy | reflexivity].
Qed.

Section NormalForm.

Variable validators_url : string -> bool.
Variable check_bracketed_host : string -> bool.
Variable nfkc : string -> string.

Local Abbreviation normalise :=
  (Spider.modify_verify_url validators_url check_bracketed_host nfkc).
Local Abbreviation normalise_exit :=
  (Spider.modify_verify_url_exit validators_url check_bracketed_host nfkc).

(** What leaves through line 201 has no query or fragment mark. *)
Lemma valid_href_no_marks (root url s : string) :
  normalise_exit root url = Returned (Spider.ReturnValidHref, s) ->
  no_marks s.
Proof.
  unfold Spider.modify_verify_url_exit.
  destruct (validators_url url); [discriminate|].
  destruct (validators_url (Str.concat_map _ url)); cbn [negb]; [discriminate|].
  destruct (UrlParse.urljoin _ _ _ _) as [href|]; [|discriminate].
  rewrite result_bind_returned.
  destruct (UrlParse.urlparse _ _ href "") as [parsed|] eqn:Ep; [|discriminate].
  rewrite result_bind_returned.
  destruct (urlparse_clean _ _ _ _ Ep) as (H1 & H2 & H3).
  destruct (validators_url _); intros [= <-].
  apply no_marks_app; [exact H1|].
  apply no_marks_app; [split; reflexivity|].
  now apply no_marks_app.
Qed.


(** With a validator that accepts only strings with a colon, what the
    method returns is empty or accepted by the validator. *)
Lemma normal_form_valid (root url s : string) :
  (forall t, validators_url t = true -> Str.has_char ":" t = true) ->
  normalise root url = Returned s -> s = "" \/ validators_url s = true.
Proof.
  intros Hcolon Hrun. apply modify_verify_url_value in Hrun as [e Hrun].
  apply modify_verify_url_exits in Hrun. destruct e.
  - destruct Hrun as [Hv ->]. now right.
  - now right.
  - destruct Hrun as (_ & Hq & _). apply Hcolon in Hq.
    rewrite quoted_no_colon in Hq. discriminate.
  - now left.
Qed.

(** The loop of [get_all_sublinks_from_soup]: a pass raises exactly when
    the normalisation of the anchor's link raises, whatever the set. *)
Lemma sublinks_body_raises (root : string) (temp_set : gset string)
    (a_tag : Soup.Tag) (e : exn) :
  Spider.sublinks_body validators_url check_bracketed_host nfkc root temp_set a_tag
  = Raised e
  <-> exists href, Soup.get "href" a_tag = Some href /\ href <> ""
                   /\ normalise root href = Raised e.
Proof.
  unfold Spider.sublinks_body.
  destruct (Soup.get "href" a_tag) as [href|].
  - destruct (String.eqb_spec href "") as [->|Hne].
    + split; [discriminate | intros (h & [= <-] & Hh & _); now destruct Hh].
    + destruct (normalise root href) as [clean|e'] eqn:En.
      * rewrite result_bind_returned.
        split; [destruct (_ && _); discriminate|].
        intros (h & [= <-] & _ & H). congruence.
      * split; [intros [= <-]; eauto|]. intros (h & [= <-] & _ & H).
        rewrite En in H. now injection H as ->.
  - split; [discriminate | intros (h & H & _); discriminate].
Qed.

(** A pass that returns adds the normal form of the anchor's link when it
    is neither empty nor a mail link, and nothing else. *)
Lemma sublinks_body_returns (root : string) (temp_set temp_set' : gset string)
    (a_tag : Soup.Tag) :
  Spider.sublinks_body validators_url check_bracketed_host nfkc root temp_set a_tag
  = Returned temp_set' ->
  forall l, l ∈ temp_set'
            <-> l ∈ temp_set
                \/ exists href, Soup.get "href" a_tag = Some href /\ href <> ""
                                /\ normalise root href = Returned l /\ l <> ""
                                /\ Str.contains "mailto" l = false.
Proof.
  unfold Spider.sublinks_body.
  destruct (Soup.get "href" a_tag) as [href|].
  - destruct (String.eqb_spec href "") as [->|Hne].
    + intros [= <-] l. split; [auto|]. intros [H|(h & [= <-] & Hh & _)]; easy.
    + destruct (normalise root href) as [clean|e'] eqn:En; [|discriminate].
      rewrite result_bind_returned.
      destruct (String.eqb_spec clean "") as [->|Hc]; cbn [negb andb].
      * intros [= <-] l. split; [auto|].
        intros [H|(h & [= <-] & _ & H & Hl & _)]; [exact H|]. congruence.
      * destruct (Str.contains "mailto" clean) eqn:Hm; cbn [negb];
          intros [= <-] l.
        -- split; [auto|].
           intros [H|(h & [= <-] & _ & H & _ & Hl)]; [exact H|]. congruence.
        -- rewrite elem_of_union, elem_of_singleton. split.
           ++ intros [->|H]; [right; exists href; auto | now left].
           ++ intros [H|(h & [= <-] & _ & H & _)]; [now right|]. left. congruence.
  - intros [= <-] l. split; [auto|]. intros [H|(h & H & _)]; easy.
Qed.

Lemma sublinks_loop_members (root : string) (tags : list Soup.Tag) :
  forall temp_set links,
    for_each (Spider.sublinks_body validators_url check_bracketed_host nfkc root)
             tags temp_set = Returned links ->
    forall l, l ∈ links
              <-> l ∈ temp_set
                  \/ exists t href, t ∈ tags /\ Soup.get "href" t = Some href
                                    /\ href <> "" /\ normalise root href = Returned l
                                    /\ l <> "" /\ Str.contains "mailto" l = false.
Proof.
  induction tags as [|t tags IH]; intros temp_set links Hrun l.
  - cbn in Hrun. injection Hrun as <-. split; [auto|].
    intros [H|(t & h & Ht & _)]; [exact H | inversion Ht].
  - cbn [for_each] in Hrun.
    destruct (Spider.sublinks_body _ _ _ root temp_set t) as [temp_set'|] eqn:Hb;
      [|discriminate].
    rewrite (IH _ _ Hrun l), (sublinks_body_returns _ _ _ _ Hb l). split.
    + intros [[H|(h & H)]|(t' & h & Ht & H)].
      * now left.
      * right. exists t, h. split; [left | exact H].
      * right. exists t', h. split; [now right | exact H].
    + intros [H|(t' & h & Ht & H)]; [now left; left|].
      apply elem_of_cons in Ht as [->|Ht].
      * left. right. now exists h.
      * right. now exists t', h.
Qed.

Lemma sublinks_loop_raises (root : string) (tags : list Soup.Tag) :
  forall temp_set,
    (exists e, for_each (Spider.sublinks_body validators_url check_bracketed_host
                           nfkc root) tags temp_set = Raised e)
    <-> exists t href e, t ∈ tags /\ Soup.get "href" t = Some href /\ href <> ""
                         /\ normalise root href = Raised e.
Proof.
  induction tags as [|t tags IH]; intros temp_set.
  - split; [intros [e H]; discriminate | intros (t & h & e & Ht & _); inversion Ht].
  - cbn [for_each].
    destruct (Spider.sublinks_body _ _ _ root temp_set t) as [temp_set'|e0] eqn:Hb.
    + rewrite IH. split.
      * intros (t' & h & e & Ht & H). exists t', h, e. split; [now right | exact H].
      * intros (t' & h & e & Ht & H). apply elem_of_cons in Ht as [->|Ht].
        -- exfalso.
           assert (Hr : Spider.sublinks_body validators_url check_bracketed_host
                          nfkc root temp_set t = Raised e)
             by (apply sublinks_body_raises; now exists h).
           congruence.
        -- now exists t', h, e.
    + split; [|eauto]. intros _. apply sublinks_body_raises in Hb as (h & H).
      exists t, h, e0. split; [left | exact H].
Qed.

End NormalForm.

(** X1. With a validator that accepts only strings containing a colon,
    whatever [modify_verify_url] returns is the empty string or a string
    the validator accepts. *)
Theorem modify_verify_url_empty_or_valid
    (validators_url : string -> bool) (check_bracketed_host : string -> bool)
    (nfkc : string -> string) (root url s : string) :
  (forall t, validators_url t = true -> Str.has_char ":" t = true) ->
  Spider.modify_verify_url validators_url check_bracketed_host nfkc root url
  = Returned s ->
  s = "" \/ validators_url s = true.
Proof. apply normal_form_valid. Qed.

Lemma modify_verify_url_empty_or_valid_witness :
  "https://example.com/about" = ""
  \/ Examples.reference_validator "https://example.com/about" = true.
Proof.
  apply (modify_verify_url_empty_or_valid Examples.reference_validator
           Examples.reject_bracketed_host Examples.ascii_nfkc
           Examples.shop_root "about" "https://example.com/about"
           reference_validator_needs_colon).
  reflexivity.
Defined.

(** X2. With such a validator, a link that does not validate as given is
    returned without any [?] or [#]: the result is empty or the joined
    link reduced to scheme, netloc and path. *)
Theorem modify_verify_url_strips_marks
    (validators_url : string -> bool) (check_bracketed_host : string -> bool)
    (nfkc : string -> string) (root url s : string) :
  (forall t, validators_url t = true -> Str.has_char ":" t = true) ->
  validators_url url = false ->
  Spider.modify_verify_url validators_url check_bracketed_host nfkc root url
  = Returned s ->
  Str.has_char "?" s = false /\ Str.has_char "#" s = false.
Proof.
  intros Hcolon Hu Hrun. apply modify_verify_url_value in Hrun as [e Hrun].
  pose proof (modify_verify_url_exits _ _ _ _ _ _ _ Hrun) as Hexit. destruct e.
  - destruct Hexit. congruence.
  - apply valid_href_no_marks in Hrun as [H1 H2]. auto.
  - destruct Hexit as (_ & Hq & _). apply Hcolon in Hq.
    rewrite quoted_no_colon in Hq. discriminate.
  - destruct Hexit as [_ ->]. auto.
Qed.

Lemma modify_verify_url_strips_marks_witness :
  Str.has_char "?" "https://example.com/shop/list" = false
  /\ Str.has_char "#" "https://example.com/shop/list" = false.
Proof.
  apply (modify_verify_url_strips_marks Examples.reference_validator
           Examples.reject_bracketed_host Examples.ascii_nfkc
           "https://example.com/shop/index.html?page=2#top" "list"
           "https://example.com/shop/list" reference_validator_needs_colon);
    reflexivity.
Defined.

(** X3. Nothing in [modify_verify_url] catches the [ValueError] of
    [urlparse]: when the root does not parse, every non-empty link that
    does not validate, raw or quoted, makes the call raise. *)
Theorem modify_verify_url_root_error_propagates
    (validators_url : string -> bool) (check_bracketed_host : string -> bool)
    (nfkc : string -> string) (root url : string) (e : exn) :
  UrlParse.urlparse check_bracketed_host nfkc root "" = Raised e ->
  root <> "" -> url <> "" ->
  validators_url url = false ->
  validators_url (Str.concat_map UrlParse.quote_byte url) = false ->
  Spider.modify_verify_url validators_url check_bracketed_host nfkc root url
  = Raised e.
Proof.
  intros Hroot Hr Hu Hv Hq.
  unfold Spider.modify_verify_url, Spider.modify_verify_url_exit.
  rewrite Hv, Hq. cbn [negb]. unfold UrlParse.urljoin.
  destruct root as [|c root]; [easy|]. cbn [Str.is_empty].
  rewrite (quoted_nonempty url Hu), Hroot. reflexivity.
Qed.

Lemma modify_verify_url_root_error_propagates_witness :
  Spider.modify_verify_url Examples.reference_validator
    Examples.reject_bracketed_host Examples.ascii_nfkc "http://[example.com/" "about"
  = Raised ValueError.
Proof.
  apply (modify_verify_url_root_error_propagates Examples.reference_validator
           Examples.reject_bracketed_host Examples.ascii_nfkc
           "http://[example.com/" "about" ValueError);
    try reflexivity; discriminate.
Defined.

(** X4. [get_all_sublinks_from_soup] raises exactly when the document has
    an anchor with a non-empty [href] whose normalisation raises; no set is
    returned then, whatever the other anchors are. *)
Theorem get_all_sublinks_from_soup_raises_iff
    (validators_url : string -> bool) (check_bracketed_host : string -> bool)
    (nfkc : string -> string) (root : string) (soup : list Soup.Tag) :
  (exists e, Spider.get_all_sublinks_from_soup validators_url check_bracketed_host
               nfkc root soup = Raised e)
  <-> exists t href e,
        t ∈ Soup.find_all "a" soup /\ Soup.get "href" t = Some href /\ href <> ""
        /\ Spider.modify_verify_url validators_url check_bracketed_host nfkc
             root href = Raised e.
Proof. apply sublinks_loop_raises. Qed.

(** X5. When [get_all_sublinks_from_soup] returns, a link is in the set
    exactly when it is the normal form of the non-empty [href] of some
    anchor of the document, is not empty and does not contain [mailto]. *)
Theorem get_all_sublinks_from_soup_members
    (validators_url : string -> bool) (check_bracketed_host : string -> bool)
    (nfkc : string -> string) (root : string) (soup : list Soup.Tag)
    (links : gset string) :
  Spider.get_all_sublinks_from_soup validators_url check_bracketed_host nfkc
    root soup = Returned links ->
  forall l,
    l ∈ links
    <-> exists t href,
          t ∈ Soup.find_all "a" soup /\ Soup.get "href" t = Some href
          /\ href <> ""
          /\ Spider.modify_verify_url validators_url check_bracketed_host nfkc
               root href = Returned l
          /\ l <> "" /\ Str.contains "mailto" l = false.
Proof.
  intros Hrun l.
  rewrite (sublinks_loop_members _ _ _ _ _ _ _ Hrun l). split; [|auto].
  intros [H|H]; [|exact H]. apply not_elem_of_empty in H. destruct H.
Qed.

Lemma get_all_sublinks_from_soup_members_witness :
  "https://example.com/about" ∈ ({[ "https://example.com/about" ]} : gset string).
Proof.
  apply (get_all_sublinks_from_soup_members Examples.reference_validator
           Examples.reject_bracketed_host Examples.ascii_nfkc Examples.shop_root
           Examples.links_page {[ "https://example.com/about" ]} eq_refl).
  exists (Soup.mkTag "a" [("href", "about")] []), "about".
  split; [|repeat split; discriminate].
  cbn. set_solver.
Defined.

(** X6. With a validator that accepts only strings containing a colon,
    every link of the set that [get_all_sublinks_from_soup] returns is
    accepted by the validator. *)
Theorem get_all_sublinks_from_soup_valid
    (validators_url : string -> bool) (check_bracketed_host : string -> bool)
    (nfkc : string -> string) (root : string) (soup : list Soup.Tag)
    (links : gset string) :
  (forall t, validators_url t = true -> Str.has_char ":" t = true) ->
  Spider.get_all_sublinks_from_soup validators_url check_bracketed_host nfkc
    root soup = Returned links ->
  forall l, l ∈ links -> validators_url l = true.
Proof.
  intros Hcolon Hrun l Hl.
  apply (sublinks_loop_members _ _ _ _ _ _ _ Hrun l) in Hl as [Hl|Hl];
    [apply not_elem_of_empty in Hl; destruct Hl|].
  destruct Hl as (t & href & _ & _ & _ & Hn & Hne & _).
  destruct (normal_form_valid _ _ _ _ _ _ Hcolon Hn); [congruence | assumption].
Qed.

Lemma get_all_sublinks_from_soup_valid_witness :
  Examples.reference_validator "https://example.com/about" = true.
Proof.
  apply (get_all_sublinks_from_soup_valid Examples.reference_validator
           Examples.reject_bracketed_host Examples.ascii_nfkc Examples.shop_root
           Examples.links_page {[ "https://example.com/about" ]}
           reference_validator_needs_colon eq_refl).
  set_solver.
Defined.

(** ** The methods that read the live page *)

Section LiveMethods.

Variable get_attribute : Browser.WebElement -> string -> option string.

Lemma xpath_links_loop_answers (href_elements : list Browser.WebElement) :
  forall temp_set out,
    Selenium.xpath_links_loop get_attribute href_elements temp_set = Selenium.Answer out ->
    (forall e, e ∈ href_elements -> get_attribute e "href" <> None)
    /\ forall l, l ∈ out
                 <-> l ∈ temp_set
                     \/ exists e, e ∈ href_elements
                                  /\ get_attribute e "href" = Some l
                                  /\ Selenium.is_web_link l = true.
Proof.
  induction href_elements as [|e rest IH]; intros temp_set out Hrun.
  - cbn in Hrun. injection Hrun as <-. split; [intros e He; inversion He|].
    intros l. split; [auto | intros [H|(e & He & _)]; [exact H | inversion He]].
  - cbn [Selenium.xpath_links_loop] in Hrun.
    destruct (get_attribute e "href") as [thing|] eqn:Ha; [|discriminate].
    destruct (IH _ _ Hrun) as [Hall Hmem]. split.
    + intros e' He'. apply elem_of_cons in He' as [->|He']; [congruence | auto].
    + intros l. rewrite Hmem. split.
      * intros [H|(e' & He' & H)].
        -- destruct (Selenium.is_web_link thing) eqn:Ew; [|now left].
           apply elem_of_union in H as [H|H]; [|now left].
           apply elem_of_singleton in H as ->. right. exists e.
           split; [left | auto].
        -- right. exists e'. split; [now right | exact H].
      * intros [H|(e' & He' & Hl & Hw)].
        -- left. destruct (Selenium.is_web_link thing); [|exact H].
           apply elem_of_union. now right.
        -- apply elem_of_cons in He' as [->|He'].
           ++ left. rewrite Ha in Hl. injection Hl as ->. rewrite Hw.
              apply elem_of_union. left. now apply elem_of_singleton.
           ++ right. now exists e'.
Qed.

Lemma xpath_links_loop_fails (href_elements : list Browser.WebElement) :
  forall temp_set f,
    Selenium.xpath_links_loop get_attribute href_elements temp_set = Selenium.Failed f ->
    f = Selenium.AttributeError
    /\ exists e, e ∈ href_elements /\ get_attribute e "href" = None.
Proof.
  induction href_elements as [|e rest IH]; intros temp_set f Hrun; [discriminate|].
  cbn [Selenium.xpath_links_loop] in Hrun.
  destruct (get_attribute e "href") as [thing|] eqn:Ha.
  - destruct (IH _ _ Hrun) as [-> (e' & He' & H)]. split; [reflexivity|].
    exists e'. split; [now right | exact H].
  - injection Hrun as <-. split; [reflexivity|]. exists e. split; [left | exact Ha].
Qed.

Lemma attributes_loop_filter (element : Browser.WebElement) (attributes : list string) :
  forall attribute_tuples,
    Selenium.attributes_loop get_attribute element attributes attribute_tuples
    = attribute_tuples
      ++ filter (fun p => p.2 <> Some "")
                ((fun attr => (attr, get_attribute element attr)) <$> attributes).
Proof.
  induction attributes as [|attr rest IH]; intros acc.
  - cbn. now rewrite app_nil_r.
  - cbn [Selenium.attributes_loop fmap list_fmap]. rewrite IH.
    rewrite filter_cons. cbn [snd].
    destruct (decide (get_attribute element attr <> Some "")) as [Hne|He].
    + rewrite bool_decide_eq_false_2 by exact Hne. now rewrite <- app_assoc.
    + rewrite bool_decide_eq_true_2; [reflexivity|].
      destruct (decide (get_attribute element attr = Some "")); [assumption|].
      now destruct He.
Qed.

End LiveMethods.


(** X8. [get_all_sublinks_selenium_by_xpath] returns the [href] values of
    the elements found by [//a[@href]] that start with [https:] or
    [http:], each once; it fails, with [AttributeError], exactly when one
    of these elements has no [href] value to call [startswith] on. *)
Theorem selenium_by_xpath_links
    (driver_get : Browser.WebDriver -> string -> Browser.WebDriver)
    (find_elements : Browser.WebDriver -> string -> list Browser.WebElement)
    (get_attribute : Browser.WebElement -> string -> option string)
    (d : Browser.WebDriver) (webpage : string) :
  (forall out,
     Selenium.get_all_sublinks_selenium_by_xpath driver_get find_elements
       get_attribute d webpage = Selenium.Answer out ->
     forall l,
       l ∈ out
       <-> exists e,
             e ∈ find_elements (Selenium.visit driver_get d webpage) "//a[@href]"
             /\ get_attribute e "href" = Some l /\ Selenium.is_web_link l = true)
  /\ ((exists f,
         Selenium.get_all_sublinks_selenium_by_xpath driver_get find_elements
           get_attribute d webpage = Selenium.Failed f)
      <-> exists e,
            e ∈ find_elements (Selenium.visit driver_get d webpage) "//a[@href]"
            /\ get_attribute e "href" = None)
  /\ (forall f,
        Selenium.get_all_sublinks_selenium_by_xpath driver_get find_elements
          get_attribute d webpage = Selenium.Failed f ->
        f = Selenium.AttributeError).
Proof.
  unfold Selenium.get_all_sublinks_selenium_by_xpath.
  set (els := find_elements _ _). split; [|split].
  - intros out Hrun l.
    destruct (xpath_links_loop_answers _ _ _ _ Hrun) as [_ Hmem].
    rewrite Hmem. split; [|auto].
    intros [H|H]; [|exact H]. apply not_elem_of_empty in H. destruct H.
  - split.
    + intros [f Hrun]. now apply xpath_links_loop_fails in Hrun as [_ H].
    + intros (e & He & Hnone).
      destruct (Selenium.xpath_links_loop get_attribute els ∅) as [out|f] eqn:Hrun;
        [|eauto].
      destruct (xpath_links_loop_answers _ _ _ _ Hrun) as [Hall _].
      now destruct (Hall e He).
  - intros f Hrun. now apply xpath_links_loop_fails in Hrun as [-> _].
Qed.

Lemma selenium_by_xpath_links_witness :
  Selenium.get_all_sublinks_selenium_by_xpath (Examples.serve (fun _ => None))
    LiveExamples.anchors_of LiveExamples.attribute_of Examples.blank ""
  = Selenium.Answer {[ "https://example.com/about"; "http://example.com/" ]}
  /\ ("mailto:a@b.com"
        ∈ ({[ "https://example.com/about"; "http://example.com/" ]} : gset string)
      <-> exists e,
            e ∈ LiveExamples.anchors_of
                  (Selenium.visit (Examples.serve (fun _ => None)) Examples.blank "")
                  "//a[@href]"
            /\ LiveExamples.attribute_of e "href" = Some "mailto:a@b.com"
            /\ Selenium.is_web_link "mailto:a@b.com" = true).
Proof.
  split; [reflexivity|].
  apply (proj1 (selenium_by_xpath_links (Examples.serve (fun _ => None))
                  LiveExamples.anchors_of LiveExamples.attribute_of
                  Examples.blank "")).
  reflexivity.
Defined.

(** X9. [get_attributes_from_selenium_using_xpath] fails when nothing is
    located at the path.  Otherwise it lists, in the order asked, each
    attribute with its value, leaving out only the attributes whose value
    is the empty string: an attribute the element does not have is listed,
    with [None]. *)
Theorem get_attributes_keeps_absent
    (get_attribute : Browser.WebElement -> string -> option string)
    (d : Browser.WebDriver) (xpath : string) (attributes : list string) :
  (Browser.find_element d xpath = None ->
   Selenium.get_attributes_from_selenium_using_xpath get_attribute d xpath attributes
   = Selenium.Failed Selenium.NoSuchElementException)
  /\ (forall element,
        Browser.find_element d xpath = Some element ->
        Selenium.get_attributes_from_selenium_using_xpath get_attribute d xpath
          attributes
        = Selenium.Answer
            (filter (fun p => p.2 <> Some "")
                    ((fun attr => (attr, get_attribute element attr)) <$> attributes))
        /\ forall attr,
             attr ∈ attributes -> get_attribute element attr = None ->
             (attr, None)
             ∈ filter (fun p => p.2 <> Some "")
                      ((fun attr => (attr, get_attribute element attr)) <$> attributes)).
Proof.
  unfold Selenium.get_attributes_from_selenium_using_xpath. split.
  - now intros ->.
  - intros element ->. split.
    + now rewrite attributes_loop_filter.
    + intros attr Hin Hnone. apply list_elem_of_filter. split; [easy|].
      apply list_elem_of_fmap. exists attr. split; [now rewrite Hnone | exact Hin].
Qed.

Lemma get_attributes_keeps_absent_witness :
  Selenium.get_attributes_from_selenium_using_xpath LiveExamples.attribute_of
    LiveExamples.image_driver "//img" ["src"; "alt"; "title"]
  = Selenium.Answer [("src", Some "/a.png"); ("title", None)]
  /\ Selenium.get_attributes_from_selenium_using_xpath LiveExamples.attribute_of
       LiveExamples.image_driver "//video" ["src"]
     = Selenium.Failed Selenium.NoSuchElementException.
Proof.
  destruct (get_attributes_keeps_absent LiveExamples.attribute_of
              LiveExamples.image_driver "//img" ["src"; "alt"; "title"]) as [_ H].
  destruct (H (Browser.mkElement "img1") eq_refl) as [H1 _].
  split; [rewrite H1; reflexivity|].
  apply (get_attributes_keeps_absent LiveExamples.attribute_of
           LiveExamples.image_driver "//video" ["src"]).
  reflexivity.
Defined.

(** ** The template of [get_elements_xpaths] *)

Lemma split_go_nonempty (sep : string) (s : string) :
  forall skip cur, Str.split_go sep skip cur s <> [].
Proof.
  induction s as [|a s IH]; intros skip cur; cbn [Str.split_go]; [easy|].
  destruct skip; [|apply IH]. destruct (String.prefix sep _); [easy | apply IH].
Qed.

Lemma split_go_no_separator (sep : string) (s : string) :
  forall cur, Str.contains sep s = false -> Str.split_go sep 0 cur s = [cur +:+ s].
Proof.
  induction s as [|a s IH]; intros cur H; cbn [Str.split_go].
  - now rewrite append_empty_r.
  - cbn [Str.contains] in H. apply orb_false_iff in H as [Hp Hc].
    rewrite Hp, (IH _ Hc). now rewrite append_assoc.
Qed.

Lemma split_go_separator (sep : string) (s : string) :
  sep <> "" ->
  forall cur, Str.contains sep s = true ->
              exists p0 p1 rest, Str.split_go sep 0 cur s = p0 :: p1 :: rest.
Proof.
  intros Hsep. induction s as [|a s IH]; intros cur H.
  - cbn in H. destruct sep; [easy | discriminate].
  - cbn [Str.contains] in H. cbn [Str.split_go].
    destruct (String.prefix sep (String a s)) eqn:Hp.
    + destruct (Str.split_go sep (String.length sep - 1) "" s) as [|p1 rest] eqn:E;
        [now apply split_go_nonempty in E|]. eauto.
    + cbn [orb] in H. now apply IH.
Qed.

Section Template.

Variable driver_get : Browser.WebDriver -> string -> Browser.WebDriver.

Lemma get_elements_xpaths_index_error (d : Browser.WebDriver)
    (webpage xpath : string) (fuel : nat) :
  Browser.get_elements_xpaths driver_get (S fuel) d webpage xpath
  = Some (Raised IndexError)
  <-> Str.contains "[INDEX]" xpath = false.
Proof.
  unfold Browser.get_elements_xpaths, Str.split.
  set (d' := Browser.__optimize_selenium_driver__ driver_get d webpage).
  destruct (Str.contains "[INDEX]" xpath) eqn:Hc.
  - split; [|discriminate]. intros H. exfalso.
    destruct (split_go_separator "[INDEX]" xpath ltac:(discriminate) "" Hc)
      as (p0 & p1 & rest & E).
    rewrite E in H. cbn [Browser.xpath_loop] in H.
    destruct (Browser.xpath_body d' (p0 :: p1 :: rest) Browser.xpath_init)
      as [[st' []]|e] eqn:Hb.
    + unfold Browser.xpath_body in Hb. cbn [Browser.current_path] in Hb.
      rewrite result_bind_returned in Hb.
      destruct (Browser.find_element d' _) as [e|]; cbn in Hb; [|discriminate].
      injection Hb as <-.
      rewrite (xpath_loop_bound_diverges d' _ p0 p1 rest fuel eq_refl) with (e := e)
        in H by reflexivity.
      discriminate.
    + unfold Browser.xpath_body in Hb. cbn [Browser.current_path] in Hb.
      rewrite result_bind_returned in Hb.
      destruct (Browser.find_element d' _) as [e|]; cbn in Hb; discriminate.
    + unfold Browser.xpath_body in Hb. cbn [Browser.current_path] in Hb.
      rewrite result_bind_returned in Hb.
      destruct (Browser.find_element d' _) as [e0|]; cbn in Hb; [discriminate|].
      injection Hb as <-. discriminate.
  - split; [reflexivity|]. intros _.
    rewrite (split_go_no_separator "[INDEX]" xpath "" Hc). reflexivity.
Qed.

End Template.

(** The passes of the loop on a document whose elements at the next
    indices are [es]. *)
Lemma xpath_after_hits (d : Browser.WebDriver) (p0 p1 : string) (rest : list string)
    (es : list Browser.WebElement) :
  forall st,
    (forall i e, es !! i = Some e ->
                 Browser.find_element d
                   (p0 +:+ "[" +:+ pretty (Browser.index st + i) +:+ "]" +:+ p1)
                 = Some e) ->
    exists st',
      Browser.xpath_after (length es) d (p0 :: p1 :: rest) st = Some st'
      /\ Browser.index st' = Browser.index st + length es
      /\ Browser.list_of_elements st'
         = Browser.list_of_elements st ++ (Browser.PyElement <$> es).
Proof.
  induction es as [|e es IH]; intros st Hfind.
  - exists st. cbn. now rewrite Nat.add_0_r, app_nil_r.
  - assert (Hb : Browser.xpath_body d (p0 :: p1 :: rest) st
                 = Returned (Browser.mkXpathState (S (Browser.index st))
                               (Some (Browser.PyElement e))
                               (Browser.list_of_elements st ++ [Browser.PyElement e]),
                             Browser.Continue)).
    { apply (xpath_body_hit d (p0 :: p1 :: rest) st
               (p0 +:+ "[" +:+ pretty (Browser.index st) +:+ "]" +:+ p1) e);
        [reflexivity|].
      specialize (Hfind 0 e eq_refl). now rewrite Nat.add_0_r in Hfind. }
    cbn [length Browser.xpath_after]. rewrite Hb.
    destruct (IH (Browser.mkXpathState (S (Browser.index st))
                    (Some (Browser.PyElement e))
                    (Browser.list_of_elements st ++ [Browser.PyElement e])))
      as (st' & Hrun & Hi & Hl).
    + intros i e' Hi. cbn [Browser.index].
      replace (S (Browser.index st) + i) with (Browser.index st + S i) by lia.
      now apply Hfind.
    + exists st'. split; [exact Hrun|]. cbn [Browser.index Browser.list_of_elements] in Hi, Hl.
      split; [lia|]. rewrite Hl, <- app_assoc. reflexivity.
Qed.

(** X10. [get_elements_xpaths] raises [IndexError] exactly when the
    template does not contain the placeholder [[INDEX]]: the error comes
    from [path_of_elements[1]] in the first pass, whatever the page
    shows. *)
Theorem get_elements_xpaths_needs_placeholder
    (driver_get : Browser.WebDriver -> string -> Browser.WebDriver)
    (d : Browser.WebDriver) (webpage xpath : string) (fuel : nat) :
  Browser.get_elements_xpaths driver_get (S fuel) d webpage xpath
  = Some (Raised IndexError)
  <-> Str.contains "[INDEX]" xpath = false.
Proof. apply get_elements_xpaths_index_error. Qed.

(** X11. On a document whose elements at the indices 1 to N of the
    template are [es], the loop of [get_elements_xpaths] holds, after N
    passes, exactly these elements in index order, and the next index to
    try is N + 1. *)
Theorem get_elements_xpaths_collects_in_order
    (driver_get : Browser.WebDriver -> string -> Browser.WebDriver)
    (d : Browser.WebDriver) (webpage xpath p0 p1 : string) (rest : list string)
    (es : list Browser.WebElement) :
  Str.split "[INDEX]" xpath = p0 :: p1 :: rest ->
  (forall i e, es !! i = Some e ->
               Browser.find_element
                 (Browser.__optimize_selenium_driver__ driver_get d webpage)
                 (p0 +:+ "[" +:+ pretty (S i) +:+ "]" +:+ p1)
               = Some e) ->
  exists st,
    Browser.xpath_after (length es)
      (Browser.__optimize_selenium_driver__ driver_get d webpage)
      (Str.split "[INDEX]" xpath) Browser.xpath_init = Some st
    /\ Browser.index st = S (length es)
    /\ Browser.list_of_elements st = Browser.PyElement <$> es.
Proof.
  intros -> Hfind.
  destruct (xpath_after_hits
              (Browser.__optimize_selenium_driver__ driver_get d webpage)
              p0 p1 rest es Browser.xpath_init Hfind) as (st & Hrun & Hi & Hl).
  exists st. auto.
Qed.

Lemma get_elements_xpaths_collects_in_order_witness :
  exists st,
    Browser.xpath_after 3
      (Browser.__optimize_selenium_driver__
         (Examples.serve (Examples.list_page 3)) Examples.blank
         "https://example.com/list")
      (Str.split "[INDEX]" "//ul/li[INDEX]/a") Browser.xpath_init = Some st
    /\ Browser.index st = 4
    /\ Browser.list_of_elements st
       = [Browser.PyElement (Browser.mkElement "item-1");
          Browser.PyElement (Browser.mkElement "item-2");
          Browser.PyElement (Browser.mkElement "item-3")].
Proof.
  apply (get_elements_xpaths_collects_in_order
           (Examples.serve (Examples.list_page 3)) Examples.blank
           "https://example.com/list" "//ul/li[INDEX]/a" "//ul/li" "/a" []
           [Browser.mkElement "item-1"; Browser.mkElement "item-2";
            Browser.mkElement "item-3"]).
  - reflexivity.
  - intros [|[|[|i]]] e H; cbn in H; try discriminate; injection H as <-; reflexivity.
Defined.

(** ** More about the scroll loop *)

Section ScrollBounds.

Import Scroll.

Variable p : page.

Lemma scroll_loop_more_fuel (fuel : nat) :
  forall st st' extra,
    scroll_loop fuel p st = Some st' -> scroll_loop (fuel + extra) p st = Some st'.
Proof.
  induction fuel as [|fuel IH]; intros st st' extra H; [discriminate|].
  cbn [Nat.add scroll_loop] in H |- *.
  destruct (stopped (scroll_body p st)); [exact H | now apply IH].
Qed.

(** Up to reading [N], either some reading repeats the one before, and
    there is a first such, or none does. *)
Lemma first_repeat_or_none (N : nat) :
  (exists n, n <= N /\ entries_at p (S n) = entries_at p n
             /\ forall k, k < n -> entries_at p (S k) <> entries_at p k)
  \/ (forall k, k <= N -> entries_at p (S k) <> entries_at p k).
Proof.
  induction N as [|N [(n & Hn & Heq & Hdiff)|Hnone]].
  - destruct (Nat.eq_dec (entries_at p 1) (entries_at p 0)) as [E|E].
    + left. exists 0. repeat split; [lia | exact E | intros k Hk; lia].
    + right. intros k Hk. now replace k with 0 by lia.
  - left. exists n. repeat split; [lia | exact Heq | exact Hdiff].
  - destruct (Nat.eq_dec (entries_at p (S (S N))) (entries_at p (S N))) as [E|E].
    + left. exists (S N). repeat split; [lia | exact E|].
      intros k Hk. apply Hnone. lia.
    + right. intros k Hk. destruct (Nat.eq_dec k (S N)) as [->|]; [exact E|].
      apply Hnone. lia.
Qed.

Lemma scroll_stops_by (N : nat) :
  entries_at p (S N) = entries_at p N ->
  exists st, _scroll_down_pages (S N) p = Some st /\ passes st <= S N
             /\ stopped st = true.
Proof.
  intros Heq.
  destruct (first_repeat_or_none N) as [(n & Hn & Hrep & Hdiff)|Hnone];
    [|now destruct (Hnone N (Nat.le_refl N))].
  destruct (scroll_loop_reaches p n (scroll_init p) eq_refl Hdiff Hrep)
    as (st & Hrun & Hp & _).
  exists st. unfold _scroll_down_pages.
  replace (S N) with (S n + (N - n)) by lia.
  rewrite (scroll_loop_more_fuel _ _ _ _ Hrun). cbn in Hp.
  split; [reflexivity|]. split; [lia|].
  clear -Hrun. revert Hrun. generalize (scroll_init p). generalize (S n).
  intros fuel. induction fuel as [|fuel IH]; intros st0 H; [discriminate|].
  cbn [scroll_loop] in H. destruct (stopped (scroll_body p st0)) eqn:E.
  - injection H as <-. exact E.
  - now apply (IH _ H).
Qed.

Lemma scroll_never_stops :
  (forall k, entries_at p (S k) <> entries_at p k) ->
  forall fuel, _scroll_down_pages fuel p = None.
Proof.
  intros Hdiff fuel. destruct (_scroll_down_pages fuel p) as [st|] eqn:E;
    [|reflexivity].
  destruct (scroll_loop_stopped p fuel (scroll_init p) st eq_refl E)
    as (n & _ & Heq & _).
  cbn in Heq. now destruct (Hdiff n).
Qed.

Lemma chained_snoc (y0 from to : float) (commands : list (float * float)) :
  chained y0 commands -> from = last_target y0 commands ->
  chained y0 (commands ++ [(from, to)]).
Proof.
  revert y0. induction commands as [|[a b] commands IH]; intros y0 Hc Hf.
  - cbn in Hf |- *. auto.
  - cbn in Hc |- *. destruct Hc as [-> Hc]. split; [reflexivity|].
    apply IH; [exact Hc|]. unfold last_target in Hf |- *.
    rewrite last_cons in Hf. destruct (last commands); exact Hf.
Qed.

Lemma last_target_snoc (y0 from to : float) (commands : list (float * float)) :
  last_target y0 (commands ++ [(from, to)]) = to.
Proof. unfold last_target. now rewrite last_snoc. Qed.

Lemma scroll_body_invariant (st : scroll_state) :
  stopped st = false -> scroll_invariant st -> scroll_invariant (scroll_body p st).
Proof.
  intros Hs (Hc & Hl & Hy). specialize (Hy Hs). unfold scroll_body.
  destruct (Nat.eqb _ _); unfold scroll_invariant;
    cbn [scrolls passes stopped start_y];
    (split; [now apply chained_snoc|]);
    (split; [rewrite List.length_app; cbn [length]; lia|]).
  - discriminate.
  - intros _. now rewrite last_target_snoc.
Qed.

Lemma scroll_loop_invariant (fuel : nat) :
  forall st st',
    stopped st = false -> scroll_invariant st ->
    scroll_loop fuel p st = Some st' -> scroll_invariant st'.
Proof.
  induction fuel as [|fuel IH]; intros st st' Hs Hinv H; [discriminate|].
  cbn [scroll_loop] in H.
  pose proof (scroll_body_invariant st Hs Hinv) as Hinv'.
  destruct (stopped (scroll_body p st)) eqn:E.
  - now injection H as <-.
  - now apply (IH _ _ E Hinv' H).
Qed.

End ScrollBounds.

(** X12. If the reading of pass N + 1 equals the reading before it, the
    loop of [_scroll_down_pages] has stopped by pass N + 1: N + 1 passes of
    fuel are enough, whatever the page answered earlier. *)
Theorem scroll_loop_stops_within (p : Scroll.page) (N : nat) :
  Scroll.entries_at p (S N) = Scroll.entries_at p N ->
  exists st, Scroll._scroll_down_pages (S N) p = Some st
             /\ Scroll.passes st <= S N /\ Scroll.stopped st = true.
Proof. apply scroll_stops_by. Qed.

Lemma scroll_loop_stops_within_witness :
  exists st, Scroll._scroll_down_pages 5 Examples.settling_page = Some st
             /\ Scroll.passes st <= 5 /\ Scroll.stopped st = true.
Proof.
  apply (scroll_loop_stops_within Examples.settling_page 4). reflexivity.
Defined.

(** X13. On a page whose activity count changes at every reading the loop
    of [_scroll_down_pages] never stops: no amount of fuel makes it
    return. *)
Theorem scroll_loop_unbounded (p : Scroll.page) :
  (forall k, Scroll.entries_at p (S k) <> Scroll.entries_at p k) ->
  forall fuel, Scroll._scroll_down_pages fuel p = None.
Proof. apply scroll_never_stops. Qed.

Lemma scroll_loop_unbounded_witness :
  Scroll._scroll_down_pages 1000 Examples.busy_page = None.
Proof.
  apply (scroll_loop_unbounded Examples.busy_page).
  intros k. cbn. lia.
Defined.

(** X14. When [_scroll_down_pages] returns, it has issued one
    [window.scrollTo] per pass, and the commands are chained: the first
    starts at 0 and each later one starts at the target of the one
    before. *)
Theorem scroll_commands_chained (p : Scroll.page) (fuel : nat)
    (st : Scroll.scroll_state) :
  Scroll._scroll_down_pages fuel p = Some st ->
  chained (Scroll.of_int 0) (Scroll.scrolls st)
  /\ length (Scroll.scrolls st) = Scroll.passes st.
Proof.
  intros H.
  assert (Hinit : scroll_invariant (Scroll.scroll_init p))
    by (repeat split; intros _; reflexivity).
  destruct (scroll_loop_invariant p fuel (Scroll.scroll_init p) st eq_refl Hinit H)
    as (H1 & H2 & _).
  auto.
Qed.

Lemma scroll_commands_chained_witness :
  exists st, Scroll._scroll_down_pages 3 Examples.settling_page = Some st
             /\ chained (Scroll.of_int 0) (Scroll.scrolls st)
             /\ length (Scroll.scrolls st) = Scroll.passes st.
Proof.
  eexists. split; [reflexivity|].
  apply (scroll_commands_chained Examples.settling_page 3). reflexivity.
Defined.

(** ** The number of image entries *)

Lemma first_with_src_is_some (src : option string) (l : list Soup.Tag) :
  is_Some (Spider.first_with_src src l) <-> src ∈ (Soup.get "src" <$> l).
Proof.
  rewrite list_elem_of_fmap. split.
  - intros [t Ht]. apply first_with_src_found in Ht as [Hin Hsrc]. now exists t.
  - intros (t & -> & Hin). now apply first_with_src_present.
Qed.

(** The loop of [get_all_images_from_soup] keeps as many pairs as it has
    seen sources, and sees no source twice. *)
Lemma images_loop_counts (l : list Soup.Tag) :
  NoDup (snd (fold_left Spider.images_body l (∅, [])))
  /\ size (fst (fold_left Spider.images_body l (∅, [])))
     = length (snd (fold_left Spider.images_body l (∅, []))).
Proof.
  induction l as [|x l [IHN IHS]] using rev_ind.
  - cbn. split; [constructor | apply size_empty].
  - destruct (images_loop_invariant l) as [HL HS].
    rewrite fold_left_app. cbn [fold_left].
    destruct (fold_left Spider.images_body l (∅, [])) as [temp_set temp_links].
    cbn [fst snd] in *. unfold Spider.images_body.
    destruct (bool_decide (Soup.get "src" x ∈ temp_links)) eqn:Hin; cbn [fst snd].
    + auto.
    + apply bool_decide_eq_false in Hin. split.
      * apply NoDup_app. split; [exact IHN|]. split; [|apply NoDup_singleton].
        intros s Hs Hs'. apply list_elem_of_singleton in Hs'. now subst s.
      * rewrite size_union, size_singleton, List.length_app, IHS; [cbn; lia|].
        intros pair H1 H2. apply elem_of_singleton in H1. subst pair.
        apply HS in H2 as (t & Ht & _). apply Hin, HL. eauto.
Qed.

(** X15. The set of [get_all_images_from_soup] has as many entries as the
    [img] elements of the document have distinct [src] values, an absent
    [src] counting as one value. *)
Theorem images_count_distinct_sources (soup : list Soup.Tag) :
  size (Spider.get_all_images_from_soup soup)
  = size (list_to_set (Soup.get "src" <$> Soup.find_all "img" soup)
          : gset (option string)).
Proof.
  unfold Spider.get_all_images_from_soup.
  destruct (images_loop_counts (Soup.find_all "img" soup)) as [Hnd Hsize].
  destruct (images_loop_invariant (Soup.find_all "img" soup)) as [HL _].
  rewrite Hsize, <- (size_list_to_set (C := gset (option string))) by exact Hnd.
  f_equal. apply set_eq. intros s.
  now rewrite !elem_of_list_to_set, HL, first_with_src_is_some.
Qed.

(** ** Quoting a link character by character *)

Lemma quote_byte_alphabet (b : ascii) :
  Str.forall_chars is_quoted_char (UrlParse.quote_byte b) = true.
Proof. destruct b as [[] [] [] [] [] [] [] []]; reflexivity. Qed.

Lemma quote_byte_fixed (b : ascii) :
  is_unquoted_char b = true -> UrlParse.quote_byte b = Str.of_char b.
Proof. unfold UrlParse.quote_byte, is_unquoted_char. now intros ->. Qed.

Lemma quote_byte_escaped (b : ascii) :
  is_unquoted_char b = false ->
  exists h l, UrlParse.quote_byte b = String "%" (String h (String l "")).
Proof. unfold UrlParse.quote_byte, is_unquoted_char. intros ->. eauto. Qed.

Lemma forall_chars_app (p : ascii -> bool) (s t : string) :
  Str.forall_chars p (s +:+ t) = Str.forall_chars p s && Str.forall_chars p t.
Proof.
  induction s as [|a s IH]; [reflexivity|]. rewrite append_cons.
  cbn [Str.forall_chars]. rewrite IH. apply andb_assoc.
Qed.

Lemma quoted_length (url : string) :
  String.length url <= String.length (Str.concat_map UrlParse.quote_byte url).
Proof.
  induction url as [|b url IH]; [reflexivity|]. cbn [Str.concat_map String.length].
  rewrite length_app. pose proof (quote_byte_nonempty b) as H.
  destruct (UrlParse.quote_byte b); [easy|]. cbn [String.length]. lia.
Qed.

(** X16. The link quoted on line 190 consists of letters, digits, the
    characters [_.-~/] and percent escapes only; quoting leaves a link
    unchanged exactly when the link has no other character. *)
Theorem quoted_link_alphabet (url : string) :
  Str.forall_chars is_quoted_char (Str.concat_map UrlParse.quote_byte url) = true
  /\ (Str.concat_map UrlParse.quote_byte url = url
      <-> Str.forall_chars is_unquoted_char url = true).
Proof.
  split.
  - induction url as [|b url IH]; [reflexivity|]. cbn [Str.concat_map].
    now rewrite forall_chars_app, quote_byte_alphabet, IH.
  - induction url as [|b url IH]; [easy|]. cbn [Str.concat_map Str.forall_chars].
    destruct (is_unquoted_char b) eqn:E.
    + rewrite (quote_byte_fixed b E). unfold Str.of_char. rewrite append_cons.
      change ("" +:+ Str.concat_map UrlParse.quote_byte url)
        with (Str.concat_map UrlParse.quote_byte url).
      cbn [andb]. rewrite <- IH. split; [now intros [= ->] | now intros ->].
    + destruct (quote_byte_escaped b E) as (h & l & ->). split; [|discriminate].
      intros H. exfalso.
      change (String "%" (String h (String l (Str.concat_map UrlParse.quote_byte url)))
              = String b url) in H.
      injection H as _ H. apply (f_equal String.length) in H.
      cbn [String.length] in H. pose proof (quoted_length url). lia.
Qed.
